(** * lace-http: the request pipeline of [packages/http/lib/index.js]

    A shallow embedding of the module: the response descriptor built by
    [send], the error descriptor built by [createError], the writer
    [sendResponse], the error mapping [prepareErrorResponse], the request
    source [createServerObservable], the dispatch pipeline [run] and the
    subscriber installed by [serve].

    Conventions of the embedding.
    - JavaScript values are the inductive [value]; numbers are the integral
      ones, strings are held as their UTF-8 bytes (so that
      [Buffer.byteLength] is the length of the string).
    - The outgoing response handle [res] is a record of what has been set
      and written, of how far it has been sent (nothing, the head, all of
      it) and of the streams piped into it; the functions that mutate it
      pass it along explicitly (the monad [M]).  Header names are stored
      lower-cased, as the platform does; the platform's validation of
      header names and of the range of a status code is not part of the
      embedding.
    - An rxjs sequence is the list of what it delivers plus the way it ends.
      The order in which the inner sequences of [mergeMap] deliver is an
      argument of [run]; a subject forgets what it is given before it has
      an observer.
    - [DEV] and [JSON.stringify] are given by the platform: they are
      variables of the section [Pipeline]. *)

From Stdlib Require Import ZArith Lia Ascii String.
From stdpp Require Import base option list strings gmap pretty.

Local Open Scope Z_scope.

(** ** JavaScript values *)

(** How an rxjs sequence ends: [observer.complete()], [observer.error(e)],
    or neither. *)
Inductive ending (V : Type) : Type :=
| Completes
| Fails (e : V)
| Pending.
Arguments Completes {V}.
Arguments Fails {V} e.
Arguments Pending {V}.

(** How a promise settles, some time after it was returned. *)
Inductive settlement (V : Type) : Type :=
| Fulfilled (v : V)
| Rejected (e : V)
| Unsettled.
Arguments Fulfilled {V} v.
Arguments Rejected {V} e.
Arguments Unsettled {V}.

(** A header value handed to [res.setHeader]: a string or a number. *)
Inductive hval : Type :=
| HStr (s : string)
| HNum (n : Z).

(** The object destructured by [sendResponse]: [{ data, headers, statusCode }],
    carrying the private symbol [IS_RESPONSE] when it was built by [send]. *)
Record Descriptor (V : Type) : Type := mkDescriptor {
  IS_RESPONSE : bool;
  data : V;
  statusCode : Z;
  headers : list (string * hval)
}.
Arguments mkDescriptor {V} _ _ _ _.
Arguments IS_RESPONSE {V} _.
Arguments data {V} _.
Arguments statusCode {V} _.
Arguments headers {V} _.

(** The fields [ResponseError]'s constructor sets on the error object. *)
Module Err.
Record t (V : Type) : Type := mk {
  statusCode : option Z;
  message : string;
  originalError : V
}.
Arguments mk {V} _ _ _.
Arguments statusCode {V} _.
Arguments message {V} _.
Arguments originalError {V} _.
End Err.

#[local] Set Warnings "-register-all".
Inductive value : Type :=
| VUndefined
| VNull
| VBool (b : bool)
| VNum (n : Z)
| VStr (s : string)
| VBuffer (bytes : string)
| VStream (content : string) (end_ : ending value)
| VObject (fields : list (string * value))
| VArray (items : list value)
| VPromise (s : settlement value)
| VError (name message : string)
| VResponseError (e : Err.t value)
| VDescriptor (r : Descriptor value)
| VObservable (items : list value) (fin : ending value).

Definition Response : Type := Descriptor value.

(** The result of running a piece of JavaScript: it returns or it throws. *)
Inductive outcome (A : Type) : Type :=
| Returned (a : A)
| Threw (e : value).
Arguments Returned {A} a.
Arguments Threw {A} e.

Definition TypeError (message : string) : value := VError "TypeError" message.

(** [typeof v] *)
Definition typeof (v : value) : string :=
  match v with
  | VUndefined => "undefined"
  | VBool _ => "boolean"
  | VNum _ => "number"
  | VStr _ => "string"
  | _ => "object"
  end.

(** JavaScript truthiness, as used by [if (err)] and [!res.getHeader(..)]. *)
Definition truthy (v : value) : bool :=
  match v with
  | VUndefined | VNull => false
  | VBool b => b
  | VNum n => negb (n =? 0)
  | VStr s => negb (String.eqb s EmptyString)
  | _ => true
  end.

Definition hval_truthy (o : option hval) : bool :=
  match o with
  | None => false
  | Some (HStr s) => negb (String.eqb s EmptyString)
  | Some (HNum n) => negb (n =? 0)
  end.

(** [v === null] *)
Definition is_null (v : value) : bool :=
  match v with VNull => true | _ => false end.

(** [val !== undefined] *)
Definition is_defined (val : value) : bool :=
  match val with VUndefined => false | _ => true end.

(** [Buffer.isBuffer(v)] *)
Definition Buffer_isBuffer (v : value) : bool :=
  match v with VBuffer _ => true | _ => false end.

(** [v instanceof Stream || readable(v)] *)
Definition is_stream (v : value) : bool :=
  match v with VStream _ _ => true | _ => false end.

(** [Buffer.byteLength(v)]: defined on strings and buffers, a [TypeError]
    on anything else. *)
Definition Buffer_byteLength (v : value) : outcome Z :=
  match v with
  | VStr s => Returned (Z.of_nat (String.length s))
  | VBuffer b => Returned (Z.of_nat (String.length b))
  | _ => Threw (TypeError "The string argument must be of type string or Buffer")
  end.

(** [e.stack]: the head line of the stack of an error object, [undefined] on
    a value that has no such property. *)
Definition stack (e : value) : value :=
  match e with
  | VError name message => VStr (name +:+ ": " +:+ message)
  | VResponseError e => VStr ("Error: " +:+ Err.message e)
  | VObject fields =>
      match List.find (fun kv => String.eqb (fst kv) "stack") fields with
      | Some kv => snd kv
      | None => VUndefined
      end
  | _ => VUndefined
  end.

(** ** Header names *)

Definition lower_ascii (c : ascii) : ascii :=
  let n := nat_of_ascii c in
  if ((65 <=? n)%nat && (n <=? 90)%nat)%bool then ascii_of_nat (n + 32) else c.

Fixpoint toLowerCase (s : string) : string :=
  match s with
  | EmptyString => EmptyString
  | String c s' => String (lower_ascii c) (toLowerCase s')
  end.

(** ** The response handle *)

Module Res.
(** How far the response has been sent: nothing yet, its head (the status
    line and the headers, which go out with the first write), or all of
    it. *)
Inductive progress : Type :=
| Open
| HeadSent
| Ended.

Record t : Type := mk {
  statusCode : Z;
  headers : gmap string hval;
  body : string;
  sent : progress;
  piped : list value
}.

(** [res.finished] *)
Definition finished (res : t) : bool :=
  match sent res with Ended => true | _ => false end.

(** [res.headersSent] *)
Definition headersSent (res : t) : bool :=
  match sent res with Open => false | _ => true end.

(** The handle of a request nobody has written to yet. *)
Definition fresh : t := mk 200 ∅ EmptyString Open [].
End Res.

(** Code that acts on the response handle and may throw. *)
Definition M (A : Type) : Type := Res.t -> outcome A * Res.t.

Definition ret {A : Type} (a : A) : M A := fun res => (Returned a, res).

Definition throw {A : Type} (e : value) : M A := fun res => (Threw e, res).

Definition bind {A B : Type} (m : M A) (k : A -> M B) : M B :=
  fun res =>
    match m res with
    | (Returned a, res') => k a res'
    | (Threw e, res') => (Threw e, res')
    end.

Definition lift {A : Type} (o : outcome A) : M A := fun res => (o, res).

Declare Scope js_scope.
Delimit Scope js_scope with js.
Notation "x <- m ;; k" := (bind m (fun x => k))
  (at level 100, m at next level, right associativity) : js_scope.
Notation "m ;; k" := (bind m (fun _ => k))
  (at level 100, right associativity) : js_scope.
Local Open Scope js_scope.

(** [res.statusCode = code] *)
Definition set_statusCode (code : Z) : M unit :=
  fun res => (Returned tt,
              Res.mk code (Res.headers res) (Res.body res) (Res.sent res)
                     (Res.piped res)).

Definition ERR_HTTP_HEADERS_SENT : value :=
  VError "Error" "Cannot set headers after they are sent to the client".

(** [res.setHeader(name, v)]: refused once the head of the response is sent. *)
Definition setHeader (name : string) (v : hval) : M unit :=
  fun res =>
    if Res.headersSent res
    then (Threw ERR_HTTP_HEADERS_SENT, res)
    else (Returned tt,
          Res.mk (Res.statusCode res) (<[toLowerCase name := v]> (Res.headers res))
                 (Res.body res) (Res.sent res) (Res.piped res)).

(** [res.getHeader(name)]; [None] is [undefined]. *)
Definition getHeader (name : string) : M (option hval) :=
  fun res => (Returned (Res.headers res !! toLowerCase name), res).

Definition write_end (chunk : string) : M unit :=
  fun res =>
    if Res.finished res then (Returned tt, res)
    else (Returned tt,
          Res.mk (Res.statusCode res) (Res.headers res) (Res.body res +:+ chunk)
                 Res.Ended (Res.piped res)).

(** [res.end(chunk)]: writes a string or a buffer, nothing on [undefined],
    and ends the response. *)
Definition res_end (chunk : value) : M unit :=
  match chunk with
  | VUndefined => write_end EmptyString
  | VStr s => write_end s
  | VBuffer b => write_end b
  | _ => throw (TypeError "The chunk argument must be of type string or Buffer")
  end.

(** [data.pipe(res)]: the stream is attached to the response and the call
    returns; nothing is written yet. *)
Definition pipe_to (data : value) : M unit :=
  match data with
  | VStream _ _ =>
      fun res => (Returned tt,
                  Res.mk (Res.statusCode res) (Res.headers res) (Res.body res)
                         (Res.sent res) (Res.piped res ++ [data]))
  | _ => throw (TypeError "data.pipe is not a function")
  end.

(** What a stream that was piped into the response does afterwards: it
    writes its content, and ends the response if it ends itself; a stream
    that fails or never ends leaves the response open.  Nothing is written
    to a response that is already ended. *)
Definition flow_of (stream : value) (res : Res.t) : Res.t :=
  match stream with
  | VStream content end_ =>
      if Res.finished res then res
      else Res.mk (Res.statusCode res) (Res.headers res) (Res.body res +:+ content)
             match end_ with
             | Completes => Res.Ended
             | _ => if String.eqb content EmptyString then Res.sent res else Res.HeadSent
             end
             (Res.piped res)
  | _ => res
  end.

(** The response once the streams piped into it have run. *)
Definition flow (res : Res.t) : Res.t :=
  let res' := foldl (fun r stream => flow_of stream r) res (Res.piped res) in
  Res.mk (Res.statusCode res') (Res.headers res') (Res.body res') (Res.sent res') [].

(** [xs.forEach(f)] *)
Fixpoint forEach {A : Type} (f : A -> M unit) (xs : list A) : M unit :=
  match xs with
  | [] => ret tt
  | x :: xs' => f x ;; forEach f xs'
  end.

(** ** rxjs sequences *)

Record Observable (A : Type) : Type := mkObservable {
  emitted : list A;
  fin : ending value
}.
Arguments mkObservable {A} _ _.
Arguments emitted {A} _.
Arguments fin {A} _.

Module Rx.
(** [of(x)] *)
Definition of_ {A : Type} (x : A) : Observable A := mkObservable [x] Completes.

(** [throwError(e)] *)
Definition throwError {A : Type} (e : value) : Observable A :=
  mkObservable [] (Fails e).

(** [map(f)] *)
Definition map {A B : Type} (f : A -> B) (o : Observable A) : Observable B :=
  mkObservable (List.map f (emitted o)) (fin o).

(** [catchError(selector)]: on failure, continue with the selected
    sequence. *)
Definition catchError {A : Type} (selector : value -> Observable A)
    (o : Observable A) : Observable A :=
  match fin o with
  | Fails e =>
      let o' := selector e in
      mkObservable (emitted o ++ emitted o') (fin o')
  | _ => o
  end.

(** The next value of the inner sequence number [i], if it has one left,
    and what is left then. *)
Fixpoint take_from {B : Type} (i : nat) (queues : list (list B)) {struct queues}
    : option (B * list (list B)) :=
  match queues, i with
  | [], _ => None
  | [] :: _, O => None
  | (x :: q) :: rest, O => Some (x, q :: rest)
  | q :: rest, S i' =>
      match take_from i' rest with
      | Some (x, rest') => Some (x, q :: rest')
      | None => None
      end
  end.

(** The values the inner sequences deliver when they take turns as [order]
    says (the turn of a sequence that has nothing left is skipped), and what
    they have left at the end of [order]. *)
Fixpoint interleave {B : Type} (order : list nat) (queues : list (list B))
    : list B * list (list B) :=
  match order with
  | [] => ([], queues)
  | i :: order' =>
      match take_from i queues with
      | Some (x, queues') =>
          let '(out, kept) := interleave order' queues' in (x :: out, kept)
      | None => interleave order' queues
      end
  end.

(** How the merge of the inner sequences of [mergeMap] ends: an inner
    failure fails the whole, the source's end ends it once every inner
    sequence has completed. *)
Fixpoint merge_end {B : Type} (inners : list (Observable B))
    (source_fin : ending value) : ending value :=
  match inners with
  | [] => source_fin
  | i :: rest =>
      match fin i with
      | Fails e => Fails e
      | Completes => merge_end rest source_fin
      | Pending =>
          match merge_end rest source_fin with
          | Fails e => Fails e
          | _ => Pending
          end
      end
  end.

(** The merge of the inner sequences of [mergeMap].  They deliver
    concurrently: [order] is the order in which their values come.  What
    [order] does not reach is delivered afterwards, unless the merge has
    failed, which unsubscribes the inner sequences. *)
Definition merge {B : Type} (order : list nat) (inners : list (Observable B))
    (source_fin : ending value) : Observable B :=
  let end_ := merge_end inners source_fin in
  let '(out, kept) := interleave order (List.map emitted inners) in
  mkObservable
    match end_ with
    | Fails _ => out
    | _ => out ++ concat kept
    end
    end_.

(** [mergeMap(project)] *)
Definition mergeMap {A B : Type} (order : list nat) (project : A -> Observable B)
    (source : Observable A) : Observable B :=
  merge order (List.map project (emitted source)) (fin source).

(** [multicast(() => new Subject())], [connect()] and then [subscribe(..)]:
    what an observer that subscribes after [connect()] receives from a
    source that delivers [during] while it is being connected and [whole]
    in all.  What comes during [connect()] goes to a subject that has no
    observer yet; if that ends the subject, the observer is given a new
    subject, which nothing feeds. *)
Definition connected {A : Type} (during whole : Observable A) : Observable A :=
  match fin during with
  | Pending => mkObservable (drop (length (emitted during)) (emitted whole)) (fin whole)
  | _ => mkObservable [] Pending
  end.
End Rx.

(** ** Request events and the platform server *)

(** [{ req, res }]: the request (its URL) and the identity of its response
    handle. *)
Record Event : Type := mkEvent { req : string; res : nat }.

#[global] Instance Event_eq_dec : EqDecision Event.
Proof. solve_decision. Defined.

(** [[{ req, res }, err, val]] *)
Definition Triple : Type := (Event * value * value)%type.

(** The user's handler: it is applied to the one-element sequence
    [of({ req, res })] and returns a value or throws. *)
Definition Handler : Type := Observable Event -> outcome value.

(** What the platform server does once created: it accepts connections, is
    closed, or emits ['error'] (so it reports that the port cannot be bound,
    after [listen] has returned). *)
Inductive ServerEvent : Type :=
| Accepted (ev : Event)
| Closed
| Errored (err : value).

(** The server object [createServer] returns: the result of
    [server.listen(port, ..)] and what it delivers afterwards. *)
Record Server : Type := mkServer {
  listen : Z -> outcome unit;
  arrivals : list ServerEvent
}.

(** The notifications of a created server: [observer.next({ req, res })] for
    a connection, [observer.complete()] on ['close'], after which nothing
    is delivered.  Nothing listens to ['error']: the emitter throws the
    error, which nothing catches, and the observer is not notified. *)
Fixpoint deliver (evs : list ServerEvent) : Observable Event :=
  match evs with
  | [] => mkObservable [] Pending
  | Accepted ev :: rest =>
      let o := deliver rest in mkObservable (ev :: emitted o) (fin o)
  | Closed :: _ => mkObservable [] Completes
  | Errored _ :: _ => mkObservable [] Pending
  end.

(** The error the server emits that nothing listens to, if any. *)
Fixpoint uncaught (evs : list ServerEvent) : option value :=
  match evs with
  | [] => None
  | Errored err :: _ => Some err
  | _ :: rest => uncaught rest
  end.

(** [createServerObservable(onCreate)]; [createServer] is the result of the
    platform's [createServer(..)]. *)
Definition createServerObservable (createServer : outcome Server)
    (onCreate : Server -> outcome unit) : Observable Event :=
  match createServer with
  | Threw err => mkObservable [] (Fails err)
  | Returned server =>
      match onCreate server with
      | Threw err => mkObservable [] (Fails err)
      | Returned _ => deliver (arrivals server)
      end
  end.

(** What [createServerObservable(onCreate)] delivers while it is being
    subscribed: the failure, if [createServer] or [onCreate] throws.
    Connections and ['close'] come later. *)
Definition at_subscription (createServer : outcome Server)
    (onCreate : Server -> outcome unit) : Observable Event :=
  match createServer with
  | Threw err => mkObservable [] (Fails err)
  | Returned server =>
      match onCreate server with
      | Threw err => mkObservable [] (Fails err)
      | Returned _ => mkObservable [] Pending
      end
  end.

(** ** Descriptors *)

(** [send(data, statusCode = 200, headers = [])]; [None] is an argument left
    out. *)
Definition send (data : value) (statusCode : option Z)
    (headers : option (list (string * hval))) : Response :=
  {| IS_RESPONSE := true;
     data := data;
     statusCode := default 200 statusCode;
     headers := default [] headers |}.

(** [createError(code, message, originalError)]: [Error]'s constructor
    leaves the message empty when none is given. *)
Definition createError (code : option Z) (message : option string)
    (originalError : value) : Err.t value :=
  Err.mk code (default EmptyString message) originalError.

(** [o[IS_RESPONSE]] cannot be read on [null] and [undefined]. *)
Definition isResponseObject (o : value) : outcome bool :=
  match o with
  | VUndefined | VNull =>
      Threw (TypeError "Cannot read properties of null or undefined")
  | VDescriptor r => Returned (IS_RESPONSE r)
  | _ => Returned false
  end.

Definition prepareResponse (o : value) : outcome Response :=
  match isResponseObject o, o with
  | Threw e, _ => Threw e
  | Returned true, VDescriptor r => Returned r
  | Returned _, _ =>
      Returned {| IS_RESPONSE := false; statusCode := 200; headers := []; data := o |}
  end.

(** [prepareErrorResponse(e)]: the line given to [console.error] and the
    descriptor returned. *)
Definition prepareErrorResponse (e : value) : value * Response :=
  let error :=
    match e with
    | VResponseError e' => e'
    | _ => createError (Some 500) (Some "Internal Server Error") e
    end in
  (if truthy (Err.originalError error)
   then stack (Err.originalError error)
   else stack (VResponseError error),
   send (VStr (Err.message error)) (Err.statusCode error) None).

(** ** Dispatch *)

(** [mapToObservable(f)]: [pipe] of one function is that function. *)
Definition mapToObservable (f : Handler) (x : Observable Event) : Observable value :=
  match f x with
  | Returned (VObservable items e) => mkObservable items e
  | Returned result => Rx.of_ result
  | Threw err => Rx.throwError err
  end.

(** The inner sequence [run] builds for one request. *)
Definition dispatch (handler : Handler) (ev : Event) : Observable Triple :=
  Rx.catchError (fun err => Rx.of_ (ev, err, VNull))
    (Rx.map (fun val => (ev, VNull, val))
       (mapToObservable handler (Rx.of_ ev))).

(** [run(handler, request$$)]: the sequence given to the subject of
    [multicast]; [order] is the order in which the sequences of the requests
    deliver their triples. *)
Definition run (order : list nat) (handler : Handler)
    (request__ : Observable Event) : Observable Triple :=
  Rx.mergeMap order (dispatch handler) request__.

(** ** A printer for [JSON.stringify]

    The values JSON can express are printed as the platform prints them,
    compactly when [gap] is 0 and indented by [gap] spaces a level
    otherwise; [undefined] is left out of an object and is [null] in an
    array.  The remaining objects have nothing of their own to print here
    and come out as the empty object. *)
Module Json.
Definition dquote : string := String (ascii_of_nat 34) EmptyString.
Definition newline : string := String (ascii_of_nat 10) EmptyString.

Definition hex_digit (n : nat) : ascii :=
  if (n <? 10)%nat then ascii_of_nat (48 + n) else ascii_of_nat (87 + n).

Definition escape (c : ascii) : string :=
  let n := nat_of_ascii c in
  if (n =? 34)%nat then "\" +:+ dquote
  else if (n =? 92)%nat then "\\"
  else if (n =? 8)%nat then "\b"
  else if (n =? 9)%nat then "\t"
  else if (n =? 10)%nat then "\n"
  else if (n =? 12)%nat then "\f"
  else if (n =? 13)%nat then "\r"
  else if (n <? 32)%nat
       then "\u00" +:+ String (hex_digit (n / 16)) (String (hex_digit (n mod 16)) EmptyString)
  else String c EmptyString.

Fixpoint escape_all (s : string) : string :=
  match s with
  | EmptyString => EmptyString
  | String c s' => escape c +:+ escape_all s'
  end.

Definition quote (s : string) : string := dquote +:+ escape_all s +:+ dquote.

Fixpoint spaces (n : nat) : string :=
  match n with
  | O => EmptyString
  | S n' => String " " (spaces n')
  end.

Fixpoint join (sep : string) (parts : list string) : string :=
  match parts with
  | [] => EmptyString
  | [p] => p
  | p :: rest => p +:+ sep +:+ join sep rest
  end.

Definition bracket (opening closing : string) (gap depth : nat)
    (parts : list string) : string :=
  match parts with
  | [] => opening +:+ closing
  | _ =>
      if (gap =? 0)%nat then opening +:+ join "," parts +:+ closing
      else
        let inner := newline +:+ spaces (gap * S depth) in
        opening +:+ inner +:+ join ("," +:+ inner) parts
          +:+ newline +:+ spaces (gap * depth) +:+ closing
  end.

Fixpoint render (gap depth : nat) (v : value) {struct v} : option string :=
  match v with
  | VUndefined => None
  | VNull => Some "null"
  | VBool b => Some (if b then "true" else "false")
  | VNum n => Some (pretty n)
  | VStr s => Some (quote s)
  | VArray items =>
      Some (bracket "[" "]" gap depth
              (List.map (fun x => default "null" (render gap (S depth) x)) items))
  | VObject fields =>
      Some (bracket "{" "}" gap depth
              ((fix props (fs : list (string * value)) : list string :=
                  match fs with
                  | [] => []
                  | (k, x) :: rest =>
                      match render gap (S depth) x with
                      | Some s =>
                          (quote k +:+ (if (gap =? 0)%nat then ":" else ": ") +:+ s)
                            :: props rest
                      | None => props rest
                      end
                  end) fields))
  | _ => Some "{}"
  end.

(** [JSON.stringify(v, null, gap)] *)
Definition stringify (v : value) (gap : nat) : outcome value :=
  match render gap 0 v with
  | Some s => Returned (VStr s)
  | None => Returned VUndefined
  end.
End Json.

(** ** Handlers and servers used in the examples *)

Module Examples.
Definition ev0 : Event := mkEvent "/" 0.
Definition ev1 : Event := mkEvent "/next" 1.

(** [() => v] *)
Definition returns (v : value) : Handler := fun _ => Returned v.

(** [() => { throw e }] *)
Definition throws (e : value) : Handler := fun _ => Threw e.

(** A server that listens on any port, accepts one connection and is
    closed. *)
Definition one_request : Server :=
  mkServer (fun _ => Returned tt) [Accepted ev0; Closed; Accepted ev1].

(** A server whose port is taken: [listen] returns and ['error'] follows. *)
Definition port_in_use (err : value) : Server :=
  mkServer (fun _ => Returned tt) [Errored err].

(** A server whose [listen] throws. *)
Definition refuses (err : value) : Server :=
  mkServer (fun _ => Threw err) [Accepted ev0].
End Examples.

(** ** Reasoning about code that acts on the response handle *)

(** [keeps I m]: when [m] returns, it has preserved [I]. *)
Definition keeps {A : Type} (I : Res.t -> Prop) (m : M A) : Prop :=
  forall res a res', I res -> m res = (Returned a, res') -> I res'.

(** [quiet m]: whether it returns or throws, [m] writes no body, sends
    nothing and attaches no stream. *)
Definition quiet {A : Type} (m : M A) : Prop :=
  forall res o res',
    m res = (o, res') ->
    Res.body res' = Res.body res
    /\ Res.sent res' = Res.sent res
    /\ Res.piped res' = Res.piped res.

(** The header store after [res.setHeader] was called for every entry of a
    headers mapping, in the order of [Object.keys]. *)
Definition applied (hs : list (string * hval)) (store : gmap string hval)
    : gmap string hval :=
  foldl (fun m h => <[toLowerCase (fst h) := snd h]> m) store hs.

(** [apart P queues]: at most one of the sequences holds values that
    satisfy [P]. *)
Fixpoint apart {B : Type} (P : B -> Prop) (queues : list (list B)) : Prop :=
  match queues with
  | [] => True
  | q :: rest =>
      (Forall (fun x => ~ P x) q /\ apart P rest)
      \/ Forall (Forall (fun x => ~ P x)) rest
  end.

(** [always I m]: [m] preserves [I], whether it returns or throws. *)
Definition always {A : Type} (I : Res.t -> Prop) (m : M A) : Prop :=
  forall res o res', I res -> m res = (o, res') -> I res'.

(** [ends_or_quiet m]: when [m] returns, the response is ended; when it
    throws, it has written no body and sent nothing. *)
Definition ends_or_quiet {A : Type} (m : M A) : Prop :=
  forall res o res',
    m res = (o, res') ->
    match o with
    | Returned _ => Res.finished res' = true
    | Threw _ =>
        Res.body res' = Res.body res /\ Res.sent res' = Res.sent res
    end.

(** [pipes_or_quiet data m]: [m] writes no body and sends nothing; when it
    returns, it has attached the stream [data] to the response. *)
Definition pipes_or_quiet {A : Type} (data : value) (m : M A) : Prop :=
  forall res o res',
    m res = (o, res') ->
    Res.body res' = Res.body res
    /\ Res.sent res' = Res.sent res
    /\ Res.piped res'
        = match o with
          | Returned _ => Res.piped res ++ [data]
          | Threw _ => Res.piped res
          end.

(** The header store after
    [if (!res.getHeader('Content-Type')) res.setHeader('Content-Type', v)]. *)
Definition defaulted (v : string) (store : gmap string hval) : gmap string hval :=
  if hval_truthy (store !! "content-type") then store
  else <["content-type" := HStr v]> store.

(** ** The writer and the subscriber *)

Section Pipeline.

(** [NODE_ENV === 'development'] *)
Variable DEV : bool.

(** [JSON.stringify(v, null, gap)] of the platform: a string, [undefined],
    or an exception. *)
Variable JSON_stringify : value -> nat -> outcome value.

(** [if (!res.getHeader('Content-Type')) res.setHeader('Content-Type', v)] *)
Definition default_Content_Type (v : string) : M unit :=
  current <- getHeader "Content-Type" ;;
  if hval_truthy current then ret tt else setHeader "Content-Type" (HStr v).

(** [data.length] of a buffer *)
Definition Buffer_length (v : value) : Z :=
  match v with
  | VBuffer b => Z.of_nat (String.length b)
  | _ => 0
  end.

Definition sendResponse (response : Response) : M unit :=
  let data := data response in
  set_statusCode (statusCode response) ;;
  if is_null data then res_end VUndefined
  else
    forEach (fun header => setHeader (fst header) (snd header)) (headers response) ;;
    if Buffer_isBuffer data then
      default_Content_Type "application/octet-stream" ;;
      setHeader "Content-Length" (HNum (Buffer_length data)) ;;
      res_end data
    else if is_stream data then
      default_Content_Type "application/octet-stream" ;;
      pipe_to data
    else
      str <- (if (String.eqb (typeof data) "object" || String.eqb (typeof data) "number")%bool
              then
                s <- lift (JSON_stringify data (if DEV then 2 else 0)%nat) ;;
                default_Content_Type "application/json; charset=utf-8" ;;
                ret s
              else ret data) ;;
      len <- lift (Buffer_byteLength str) ;;
      setHeader "Content-Length" (HNum len) ;;
      res_end str.

(** The callback [serve] subscribes, run on a triple with [res] the state of
    the response handle of the triple's event: what it prints with
    [console.error], whether it returns, and the state it leaves. *)
Definition subscriber (t : Triple) (res : Res.t) : list value * (outcome unit * Res.t) :=
  let '(_, err, val) := t in
  if truthy err then
    let '(line, response) := prepareErrorResponse err in
    ([line], sendResponse response res)
  else if is_defined val then
    match prepareResponse val with
    | Returned response => ([], sendResponse response res)
    | Threw e => ([], (Threw e, res))
    end
  else ([], (Returned tt, res)).

(** The effect of one request on its response handle: the subscriber runs
    on every triple of the request in turn, and no more once it has
    thrown (a callback that throws is unsubscribed). *)
Fixpoint subscribe (ts : list Triple) (res : Res.t) : list value * (outcome unit * Res.t) :=
  match ts with
  | [] => ([], (Returned tt, res))
  | t :: rest =>
      match subscriber t res with
      | (lines, (Returned _, res')) =>
          let '(lines', end_) := subscribe rest res' in (lines ++ lines', end_)
      | thrown => thrown
      end
  end.

Definition respond (handler : Handler) (ev : Event) (res : Res.t)
    : list value * (outcome unit * Res.t) :=
  subscribe (emitted (dispatch handler ev)) res.

(** [serve(handler)(port, onListen)]: what the callback it subscribes, and
    any observer of the connectable it returns, receive: [request$.connect()]
    comes before [request$.subscribe(..)].  [onListen] is called back by the
    platform once the server listens. *)
Definition serve (order : list nat) (handler : Handler)
    (createServer : outcome Server) (port : Z) : Observable Triple :=
  Rx.connected
    (run order handler
       (at_subscription createServer (fun server => listen server port)))
    (run order handler
       (createServerObservable createServer (fun server => listen server port))).

(** ** Steps of the response monad *)

Lemma bind_returned {A B : Type} (m : M A) (k : A -> M B) res b res' :
  bind m k res = (Returned b, res') ->
  exists a res1, m res = (Returned a, res1) /\ k a res1 = (Returned b, res').
Proof.
  unfold bind. destruct (m res) as [[a | e] res1]; intros H.
  - exists a, res1. split; [reflexivity | exact H].
  - discriminate H.
Qed.

Lemma keeps_ret {A : Type} (I : Res.t -> Prop) (a : A) : keeps I (ret a).
Proof. intros res a' res' HI H. inversion H; subst. exact HI. Qed.

Lemma keeps_lift {A : Type} (I : Res.t -> Prop) (o : outcome A) : keeps I (lift o).
Proof. intros res a' res' HI H. inversion H; subst. exact HI. Qed.

Lemma keeps_bind {A B : Type} (I : Res.t -> Prop) (m : M A) (k : A -> M B) :
  keeps I m -> (forall a, keeps I (k a)) -> keeps I (bind m k).
Proof.
  intros Hm Hk res b res' HI H.
  apply bind_returned in H as (a & res1 & H1 & H2).
  eapply Hk; [eapply Hm |]; eassumption.
Qed.

Lemma keeps_write_end (key : string) (v : hval) (chunk : string) :
  keeps (fun res => Res.headers res !! key = Some v) (write_end chunk).
Proof.
  intros res a res' HI H. unfold write_end in H.
  destruct (Res.finished res); inversion H; subst; exact HI.
Qed.

Lemma keeps_res_end (key : string) (v : hval) (chunk : value) :
  keeps (fun res => Res.headers res !! key = Some v) (res_end chunk).
Proof.
  destruct chunk; simpl; try apply keeps_write_end;
    intros res a res' HI H; discriminate H.
Qed.

Lemma keeps_pipe_to (key : string) (v : hval) (data : value) :
  keeps (fun res => Res.headers res !! key = Some v) (pipe_to data).
Proof.
  destruct data; simpl; intros res a res' HI H;
    try discriminate H.
  inversion H; subst. exact HI.
Qed.

Lemma keeps_setHeader (key : string) (v : hval) (name : string) (w : hval) :
  toLowerCase name <> key ->
  keeps (fun res => Res.headers res !! key = Some v) (setHeader name w).
Proof.
  intros Hne res a res' HI H. unfold setHeader in H.
  destruct (Res.headersSent res); inversion H; subst; simpl.
  rewrite lookup_insert_ne; assumption.
Qed.

Lemma keeps_default_Content_Type (key : string) (v : hval) (ct : string) :
  (key = "content-type" -> hval_truthy (Some v) = true) ->
  keeps (fun res => Res.headers res !! key = Some v) (default_Content_Type ct).
Proof.
  intros Hct res a res' HI H.
  unfold default_Content_Type, bind, getHeader in H.
  change (toLowerCase "Content-Type") with "content-type" in H.
  destruct (decide (key = "content-type")) as [-> | Hne].
  - rewrite HI, (Hct eq_refl) in H. inversion H; subst. exact HI.
  - destruct (hval_truthy (Res.headers res !! "content-type")).
    + inversion H; subst. exact HI.
    + eapply (keeps_setHeader key v "Content-Type"); [| exact HI | exact H].
      intros Heq. apply Hne. rewrite <- Heq. reflexivity.
Qed.

Ltac keeps_steps :=
  repeat first
    [ apply keeps_default_Content_Type; assumption
    | apply keeps_setHeader; assumption
    | apply keeps_res_end
    | apply keeps_pipe_to
    | apply keeps_lift
    | apply keeps_ret
    | apply keeps_bind; [| intros ?] ].

(** ** Applying the headers of a descriptor *)

Lemma forEach_setHeader_returned (hs : list (string * hval)) res a res' :
  forEach (fun header => setHeader (fst header) (snd header)) hs res
    = (Returned a, res') ->
  res' = Res.mk (Res.statusCode res) (applied hs (Res.headers res))
                (Res.body res) (Res.sent res) (Res.piped res).
Proof.
  revert res. induction hs as [| h hs IH]; intros res H; simpl in H.
  - inversion H; subst. destruct res'; reflexivity.
  - apply bind_returned in H as (u & res1 & H1 & H2).
    unfold setHeader in H1. destruct (Res.headersSent res) eqn:Hsent; [discriminate H1 |].
    inversion H1; subst. apply IH in H2. subst res'. simpl. reflexivity.
Qed.

Lemma forEach_setHeader_quiet (hs : list (string * hval)) :
  quiet (forEach (fun header => setHeader (fst header) (snd header)) hs).
Proof.
  induction hs as [| h hs IH]; intros res o res' H; simpl in H.
  - inversion H; subst. auto.
  - unfold bind, setHeader in H. destruct (Res.headersSent res) eqn:Hsent.
    + inversion H; subst. auto.
    + apply IH in H. simpl in H. exact H.
Qed.

Lemma forEach_setHeader_open (hs : list (string * hval)) res :
  Res.headersSent res = false ->
  forEach (fun header => setHeader (fst header) (snd header)) hs res
    = (Returned tt,
       Res.mk (Res.statusCode res) (applied hs (Res.headers res))
              (Res.body res) (Res.sent res) (Res.piped res)).
Proof.
  revert res. induction hs as [| h hs IH]; intros res Hopen; simpl.
  - destruct res; reflexivity.
  - unfold bind, setHeader. rewrite Hopen. rewrite IH by exact Hopen. reflexivity.
Qed.

Lemma forEach_setHeader_refused (hs : list (string * hval)) res :
  Res.headersSent res = true ->
  hs <> [] ->
  forEach (fun header => setHeader (fst header) (snd header)) hs res
    = (Threw ERR_HTTP_HEADERS_SENT, res).
Proof.
  intros Hsent Hhs. destruct hs as [| h hs]; [contradiction |].
  simpl. unfold bind, setHeader. rewrite Hsent. reflexivity.
Qed.

Lemma applied_app (hs1 hs2 : list (string * hval)) (store : gmap string hval) :
  applied (hs1 ++ hs2) store = applied hs2 (applied hs1 store).
Proof. unfold applied. apply foldl_app. Qed.

Lemma applied_other (hs : list (string * hval)) (store : gmap string hval) (key : string) :
  Forall (fun h => toLowerCase (fst h) <> key) hs ->
  applied hs store !! key = store !! key.
Proof.
  intros Hall. revert store. induction Hall as [| h hs Hh _ IH]; intros store.
  - reflexivity.
  - change (applied (h :: hs) store)
      with (applied hs (<[toLowerCase (fst h) := snd h]> store)).
    rewrite IH. apply lookup_insert_ne. exact Hh.
Qed.

Lemma applied_last (before after : list (string * hval)) (name : string)
    (v : hval) (store : gmap string hval) :
  Forall (fun h => toLowerCase (fst h) <> toLowerCase name) after ->
  applied (before ++ (name, v) :: after) store !! toLowerCase name = Some v.
Proof.
  intros Hafter. rewrite applied_app.
  change (applied ((name, v) :: after) (applied before store))
    with (applied after (<[toLowerCase name := v]> (applied before store))).
  rewrite applied_other by exact Hafter. apply lookup_insert_eq.
Qed.

Lemma append_empty_r (s : string) : s +:+ EmptyString = s.
Proof.
  induction s as [| c s IH]; [reflexivity |].
  change (String c (s +:+ EmptyString) = String c s). f_equal. exact IH.
Qed.

Lemma finished_of_sent (res res' : Res.t) :
  Res.sent res' = Res.sent res -> Res.finished res' = Res.finished res.
Proof. unfold Res.finished. intros ->. reflexivity. Qed.

Lemma headersSent_of_finished (res : Res.t) :
  Res.finished res = true -> Res.headersSent res = true.
Proof. unfold Res.finished, Res.headersSent. destruct (Res.sent res); auto. Qed.

(** ** The writer *)

(** C9.  A descriptor whose data is [null] ends the response before any
    header of the descriptor is applied: the writer returns, the status code
    is the descriptor's, the header store is what it was, nothing is added
    to the body and the response is ended. *)
Theorem null_data_skips_headers (response : Response) (res : Res.t) :
  data response = VNull ->
  exists res',
    sendResponse response res = (Returned tt, res')
    /\ Res.statusCode res' = statusCode response
    /\ Res.headers res' = Res.headers res
    /\ Res.body res' = Res.body res
    /\ Res.finished res' = true.
Proof.
  intros Hnull. unfold sendResponse. rewrite Hnull. simpl.
  unfold bind, set_statusCode, write_end.
  change (Res.finished (Res.mk (statusCode response) (Res.headers res)
                          (Res.body res) (Res.sent res) (Res.piped res)))
    with (Res.finished res).
  destruct (Res.finished res) eqn:Hfin; eexists; (split; [reflexivity |]); simpl;
    rewrite ?append_empty_r; auto.
Qed.

(** C10.  A descriptor whose data is [undefined] is never written: the
    writer throws, with nothing written to the body and the response not
    ended by it.  When the head of the response is not sent yet, or the
    descriptor has no headers, the exception is the [TypeError] of
    [Buffer.byteLength(undefined)] in the plain-text case; when the head is
    sent and the descriptor has headers, it is the refusal of the first
    [res.setHeader]. *)
Theorem undefined_data_throws (response : Response) (res : Res.t) :
  data response = VUndefined ->
  exists e res',
    sendResponse response res = (Threw e, res')
    /\ Res.body res' = Res.body res
    /\ Res.finished res' = Res.finished res
    /\ (Res.headersSent res = false \/ headers response = [] ->
        e = TypeError "The string argument must be of type string or Buffer")
    /\ (Res.headersSent res = true -> headers response <> [] ->
        e = ERR_HTTP_HEADERS_SENT).
Proof.
  intros Hundef. unfold sendResponse. rewrite Hundef. simpl.
  unfold bind at 1. unfold set_statusCode at 1.
  set (res1 := Res.mk (statusCode response) (Res.headers res) (Res.body res)
                      (Res.sent res) (Res.piped res)).
  unfold bind at 1.
  destruct (forEach _ (headers response) res1) as [[u | e] res2] eqn:Hfor;
    pose proof (forEach_setHeader_quiet _ _ _ _ Hfor) as (Hbody & Hsent & _);
    simpl in Hbody, Hsent; apply finished_of_sent in Hsent.
  - eexists _, res2. split; [reflexivity |]. repeat split; auto.
    intros Hhead Hhs. rewrite forEach_setHeader_refused in Hfor by assumption.
    discriminate Hfor.
  - exists e, res2. split; [reflexivity |]. repeat split; auto.
    + intros [Hopen | Hnone].
      * rewrite forEach_setHeader_open in Hfor by exact Hopen. discriminate Hfor.
      * rewrite Hnone in Hfor. discriminate Hfor.
    + intros Hhead Hhs. rewrite forEach_setHeader_refused in Hfor by assumption.
      congruence.
Qed.

Lemma quiet_ret {A : Type} (a : A) : quiet (ret a).
Proof. intros res o res' H. inversion H; subst. auto. Qed.

Lemma quiet_lift {A : Type} (o : outcome A) : quiet (lift o).
Proof. intros res o' res' H. inversion H; subst. auto. Qed.

Lemma quiet_bind {A B : Type} (m : M A) (k : A -> M B) :
  quiet m -> (forall a, quiet (k a)) -> quiet (bind m k).
Proof.
  intros Hm Hk res o res' H. unfold bind in H.
  destruct (m res) as [[a | e] res1] eqn:Hrun; apply Hm in Hrun as (Hb & Hs & Hp).
  - apply Hk in H as (Hb' & Hs' & Hp'). repeat split; congruence.
  - inversion H; subst. auto.
Qed.

Lemma quiet_set_statusCode (code : Z) : quiet (set_statusCode code).
Proof. intros res o res' H. inversion H; subst. auto. Qed.

Lemma quiet_setHeader (name : string) (v : hval) : quiet (setHeader name v).
Proof.
  intros res o res' H. unfold setHeader in H.
  destruct (Res.headersSent res); inversion H; subst; simpl; auto.
Qed.

Lemma quiet_default_Content_Type (ct : string) : quiet (default_Content_Type ct).
Proof.
  intros res o res' H. unfold default_Content_Type, bind, getHeader in H.
  destruct (hval_truthy _).
  - inversion H; subst. auto.
  - apply quiet_setHeader in H. exact H.
Qed.

(** The last two calls of the writer on a body that is not a stream:
    [Content-Length] is the byte length of what [res.end] writes. *)
Lemma Content_Length_of_written (len : Z) (chunk : value) res res' :
  Buffer_byteLength chunk = Returned len ->
  (setHeader "Content-Length" (HNum len) ;; res_end chunk) res = (Returned tt, res') ->
  exists written,
    Res.body res' = Res.body res +:+ written
    /\ Res.headers res' !! "content-length"
        = Some (HNum (Z.of_nat (String.length written)))
    /\ Res.finished res' = true.
Proof.
  intros Hlen H. unfold bind, setHeader in H.
  destruct (Res.headersSent res) eqn:Hsent; [discriminate H |].
  assert (Hopen : Res.sent res = Res.Open).
  { unfold Res.headersSent in Hsent. destruct (Res.sent res); congruence. }
  destruct chunk; try discriminate Hlen; simpl in Hlen, H;
    inversion Hlen; subst len; unfold write_end, Res.finished in H; simpl in H;
    rewrite Hopen in H; inversion H; subst res'; simpl;
    eexists; (split; [reflexivity | split; [apply lookup_insert_eq | reflexivity]]).
Qed.

(** C4.  When the writer returns on a descriptor whose data is not [null],
    a header of the descriptor's mapping is in the written response with its
    value unchanged, provided that no later header of the mapping has the
    same name up to letter case, that it is not [Content-Length] unless the
    data is a stream, and that its value is truthy if it is [Content-Type].
    For data that is not a stream, [Content-Length] is the byte length of
    the body written, whatever the mapping says. *)
Theorem explicit_headers_kept (response : Response) (res res' : Res.t) :
  is_null (data response) = false ->
  sendResponse response res = (Returned tt, res') ->
  (forall before after name v,
      headers response = before ++ (name, v) :: after ->
      Forall (fun h => toLowerCase (fst h) <> toLowerCase name) after ->
      (toLowerCase name = "content-length" -> is_stream (data response) = true) ->
      (toLowerCase name = "content-type" -> hval_truthy (Some v) = true) ->
      Res.headers res' !! toLowerCase name = Some v)
  /\ (is_stream (data response) = false ->
      exists written,
        Res.body res' = Res.body res +:+ written
        /\ Res.headers res' !! "content-length"
            = Some (HNum (Z.of_nat (String.length written)))
        /\ Res.finished res' = true).
Proof.
  intros Hnn Hsend. unfold sendResponse in Hsend. rewrite Hnn in Hsend.
  apply bind_returned in Hsend as (u0 & res0 & Hset & Hsend).
  apply bind_returned in Hsend as (u1 & res1 & Hfor & Hsend).
  inversion Hset; subst res0 u0; clear Hset.
  pose proof (forEach_setHeader_quiet _ _ _ _ Hfor) as (Hbody1 & _).
  apply forEach_setHeader_returned in Hfor. simpl in Hfor, Hbody1.
  split.
  - intros before after name v Hhs Hafter Hcl Hct.
    assert (Hres1 : Res.headers res1 !! toLowerCase name = Some v).
    { subst res1. simpl. rewrite Hhs. apply applied_last. exact Hafter. }
    match type of Hsend with
    | ?m _ = _ =>
        enough (Hkeeps : keeps (fun r => Res.headers r !! toLowerCase name = Some v) m)
          by exact (Hkeeps _ _ _ Hres1 Hsend)
    end.
    clear Hfor Hbody1 Hsend Hres1.
    destruct (Buffer_isBuffer (data response)) eqn:Hbuf;
      [| destruct (is_stream (data response)) eqn:Hstream].
    + assert (Hne : toLowerCase "Content-Length" <> toLowerCase name).
      { intros Heq. symmetry in Heq. apply Hcl in Heq.
        destruct (data response); discriminate. }
      keeps_steps.
    + keeps_steps.
    + assert (Hne : toLowerCase "Content-Length" <> toLowerCase name).
      { intros Heq. symmetry in Heq. apply Hcl in Heq. discriminate Heq. }
      destruct (String.eqb (typeof (data response)) "object"
                || String.eqb (typeof (data response)) "number")%bool;
        keeps_steps.
  - intros Hstream. rewrite Hstream in Hsend. rewrite <- Hbody1. clear Hfor Hbody1.
    destruct (Buffer_isBuffer (data response)) eqn:Hbuf.
    + apply bind_returned in Hsend as (u2 & res2 & Hct & Hsend).
      apply quiet_default_Content_Type in Hct as (Hbody2 & _). rewrite <- Hbody2.
      apply (Content_Length_of_written (Buffer_length (data response)) (data response));
        [| exact Hsend].
      destruct (data response); try discriminate Hbuf. reflexivity.
    + apply bind_returned in Hsend as (str & res2 & Hstr & Hsend).
      assert (Hbody2 : Res.body res2 = Res.body res1).
      { revert Hstr. destruct (String.eqb _ _ || String.eqb _ _)%bool; intros Hstr.
        - eapply quiet_bind in Hstr; [apply Hstr | apply quiet_lift |].
          intros s. apply quiet_bind; [apply quiet_default_Content_Type |].
          intros _. apply quiet_ret.
        - apply quiet_ret in Hstr. apply Hstr. }
      rewrite <- Hbody2.
      apply bind_returned in Hsend as (len & res3 & Hlen & Hsend).
      inversion Hlen as [[Hlen' Hres3]]. subst res3.
      apply (Content_Length_of_written len str); assumption.
Qed.

(** C8.  The value [send(data, code, headers)] produces is written exactly
    as any object with the same [data], [statusCode] and [headers] fields,
    and the subscriber hands it to the writer as such. *)
Theorem send_is_the_descriptor (d : value) (code : Z)
    (hs : list (string * hval)) (tag : bool) (res : Res.t) (ev : Event) :
  sendResponse (send d (Some code) (Some hs)) res
    = sendResponse (mkDescriptor tag d code hs) res
  /\ prepareResponse (VDescriptor (send d (Some code) (Some hs)))
      = Returned (send d (Some code) (Some hs))
  /\ subscriber (ev, VNull, VDescriptor (send d (Some code) (Some hs))) res
      = ([], sendResponse (mkDescriptor tag d code hs) res).
Proof. repeat split. Qed.

(** ** Dispatch *)

Lemma dispatch_never_fails (handler : Handler) (ev : Event) (e : value) :
  fin (dispatch handler ev) <> Fails e.
Proof.
  unfold dispatch, mapToObservable, Rx.catchError, Rx.map.
  destruct (handler (Rx.of_ ev)) as [v | err]; [destruct v |]; simpl;
    try discriminate.
  match goal with |- context [match ?f with Fails _ => _ | _ => _ end] => destruct f end;
    simpl; discriminate.
Qed.

Lemma interleave_nil {B : Type} (order : list nat) :
  @Rx.interleave B order [] = ([], []).
Proof. induction order as [| i order IH]; simpl; [reflexivity | exact IH]. Qed.

Lemma merge_nil {B : Type} (order : list nat) (source_fin : ending value) :
  @Rx.merge B order [] source_fin = mkObservable [] source_fin.
Proof.
  unfold Rx.merge. simpl. rewrite interleave_nil. destruct source_fin; reflexivity.
Qed.

Lemma merge_fin {B : Type} (order : list nat) (inners : list (Observable B))
    (source_fin : ending value) :
  fin (Rx.merge order inners source_fin) = Rx.merge_end inners source_fin.
Proof.
  unfold Rx.merge. destruct (Rx.interleave order (List.map emitted inners)).
  reflexivity.
Qed.

Lemma deliver_until_closed (evs : list Event) (later : list ServerEvent) :
  deliver (List.map Accepted evs ++ Closed :: later) = mkObservable evs Completes.
Proof.
  induction evs as [| ev evs IH]; simpl; [reflexivity |].
  rewrite IH. reflexivity.
Qed.

(** When the server is created and listens, the observers of [serve] receive
    the triples of what the server delivers. *)
Lemma serve_of_listening (order : list nat) (handler : Handler) (server : Server)
    (port : Z) :
  listen server port = Returned tt ->
  serve order handler (Returned server) port
    = run order handler (deliver (arrivals server)).
Proof.
  intros Hlisten. unfold serve, at_subscription, createServerObservable.
  rewrite Hlisten. unfold run at 1. unfold Rx.mergeMap. simpl.
  rewrite merge_nil. unfold Rx.connected. simpl.
  destruct (run order handler (deliver (arrivals server))). reflexivity.
Qed.

(** C1.  A promise the handler returns is not waited for: whatever it
    settles to, the request's sequence is the one triple that carries the
    promise itself as its value, with no error, and completes. *)
Theorem promise_is_the_terminal_value (handler : Handler) (ev : Event)
    (s : settlement value) :
  handler (Rx.of_ ev) = Returned (VPromise s) ->
  dispatch handler ev = mkObservable [(ev, VNull, VPromise s)] Completes.
Proof.
  intros Hret. unfold dispatch, mapToObservable. rewrite Hret. reflexivity.
Qed.

(** C2.  The triples of a request: one [(event, null, v)] for a plain value
    [v] the handler returns, one [(event, e, null)] for an [e] it throws,
    and for a sequence it returns one [(event, null, v)] for every [v] the
    sequence delivers, in order, followed by [(event, e, null)] if the
    sequence fails with [e].  Every triple is of the request's event and
    has a [null] error or a [null] value. *)
Theorem triples_of_a_request (handler : Handler) (ev : Event) :
  emitted (dispatch handler ev)
    = match handler (Rx.of_ ev) with
      | Returned (VObservable items end_) =>
          List.map (fun v => (ev, VNull, v)) items
            ++ match end_ with Fails e => [(ev, e, VNull)] | _ => [] end
      | Returned v => [(ev, VNull, v)]
      | Threw e => [(ev, e, VNull)]
      end
  /\ Forall (fun t : Triple => fst (fst t) = ev /\ (snd (fst t) = VNull \/ snd t = VNull))
        (emitted (dispatch handler ev)).
Proof.
  assert (Hmap : forall items : list value,
             Forall (fun t : Triple => fst (fst t) = ev /\ (snd (fst t) = VNull \/ snd t = VNull))
               (List.map (fun v => (ev, VNull, v)) items)).
  { intros items. apply List.Forall_forall. intros t Hin.
    apply in_map_iff in Hin as (v & <- & _). simpl. auto. }
  unfold dispatch, mapToObservable, Rx.catchError, Rx.map.
  destruct (handler (Rx.of_ ev)) as [v | err]; [destruct v |]; simpl;
    try (split; [reflexivity | constructor; [simpl; auto | constructor]]).
  match goal with |- context [match ?f with Fails _ => _ | _ => _ end] => destruct f end;
    simpl; rewrite ?app_nil_r; (split; [reflexivity |]).
  - apply Hmap.
  - apply Forall_app. split; [apply Hmap |].
    constructor; [simpl; auto | constructor].
  - apply Hmap.
Qed.

(** C6.  A failure to create or to bind the server does not reach the
    observers of the pipeline.  When [createServer] or [server.listen]
    throws, the sequence of request events is that failure and nothing else,
    and so is the sequence [run] builds from it, with no triple; but [serve]
    connects that sequence to its subject before anything has subscribed, so
    its callback and the observers of the sequence it returns receive
    nothing, neither the failure nor an end.  When the platform reports the
    failure after [listen] has returned, as an ['error'] event, nothing
    listens to it: the sequence of request events delivers nothing and does
    not end, and the error is thrown by the emitter.  When the server
    listens, accepts connections and is closed, the sequence of request
    events is these connections and completes, and the observers of [serve]
    receive the triples [run] builds from it. *)
Theorem server_failure_reaches_no_observer (order : list nat) (handler : Handler)
    (err : value) (port : Z) (evs : list Event) (later : list ServerEvent) :
  (createServerObservable (Threw err) (fun server => listen server port)
     = mkObservable [] (Fails err)
   /\ run order handler
        (createServerObservable (Threw err) (fun server => listen server port))
      = mkObservable [] (Fails err)
   /\ serve order handler (Threw err) port = mkObservable [] Pending)
  /\ (createServerObservable (Returned (mkServer (fun _ => Threw err) later))
        (fun server => listen server port)
      = mkObservable [] (Fails err)
      /\ serve order handler (Returned (mkServer (fun _ => Threw err) later)) port
         = mkObservable [] Pending)
  /\ (createServerObservable
        (Returned (mkServer (fun _ => Returned tt) (Errored err :: later)))
        (fun server => listen server port)
      = mkObservable [] Pending
      /\ uncaught (Errored err :: later) = Some err
      /\ serve order handler
           (Returned (mkServer (fun _ => Returned tt) (Errored err :: later))) port
         = mkObservable [] Pending)
  /\ (createServerObservable
        (Returned (mkServer (fun _ => Returned tt)
                     (List.map Accepted evs ++ Closed :: later)))
        (fun server => listen server port)
      = mkObservable evs Completes
      /\ serve order handler
           (Returned (mkServer (fun _ => Returned tt)
                        (List.map Accepted evs ++ Closed :: later))) port
         = run order handler (mkObservable evs Completes)).
Proof.
  assert (Hfail : run order handler (mkObservable [] (Fails err))
                  = mkObservable [] (Fails err)).
  { unfold run, Rx.mergeMap. simpl. apply merge_nil. }
  assert (Hnone : run order handler (mkObservable [] Pending)
                  = mkObservable [] Pending).
  { unfold run, Rx.mergeMap. simpl. apply merge_nil. }
  repeat split.
  - exact Hfail.
  - unfold serve, at_subscription, createServerObservable. rewrite Hfail. reflexivity.
  - unfold serve, at_subscription, createServerObservable. simpl.
    rewrite Hfail. reflexivity.
  - rewrite serve_of_listening by reflexivity. simpl. exact Hnone.
  - unfold createServerObservable. simpl. apply deliver_until_closed.
  - rewrite serve_of_listening by reflexivity. simpl.
    rewrite deliver_until_closed. reflexivity.
Qed.

(** ** The subscriber *)

Lemma open_not_sent (res : Res.t) :
  Res.headersSent res = false -> Res.sent res = Res.Open.
Proof. unfold Res.headersSent. destruct (Res.sent res); congruence. Qed.

(** A string body on a response whose head is not sent: the status code,
    [Content-Length] and the string itself; no [Content-Type]. *)
Lemma sendResponse_string (tag : bool) (m : string) (code : Z) (res : Res.t) :
  Res.headersSent res = false ->
  sendResponse (mkDescriptor tag (VStr m) code []) res
    = (Returned tt,
       Res.mk code
         (<["content-length" := HNum (Z.of_nat (String.length m))]> (Res.headers res))
         (Res.body res +:+ m) Res.Ended (Res.piped res)).
Proof.
  intros Hopen. pose proof (open_not_sent res Hopen) as Hsent.
  unfold sendResponse, bind, set_statusCode, setHeader, lift, ret, res_end, write_end,
    Res.headersSent, Res.finished.
  simpl. rewrite Hsent. reflexivity.
Qed.

(** The path that does write an empty response: [send(null, code)]. *)
Lemma sent_null_is_written (handler : Handler) (ev : Event) (code : Z)
    (hs : list (string * hval)) :
  handler (Rx.of_ ev) = Returned (VDescriptor (send VNull (Some code) (Some hs))) ->
  respond handler ev Res.fresh
    = ([], (Returned tt, Res.mk code ∅ EmptyString Res.Ended [])).
Proof.
  intros Hret. unfold respond, dispatch, mapToObservable. rewrite Hret. reflexivity.
Qed.

(** C3.  A handler that returns [null] itself: the one triple of the
    request reaches the subscriber, which throws in [prepareResponse] on
    reading [null[IS_RESPONSE]]; the writer is not called and the response
    is left as it was, not ended. *)
Theorem null_result_is_not_written (ev : Event) (res : Res.t) :
  respond (Examples.returns VNull) ev res
    = ([], (Threw (TypeError "Cannot read properties of null or undefined"), res)).
Proof. reflexivity. Qed.

(** C7.  On [undefined] the subscriber writes nothing and returns; [0],
    [false] and the empty string are wrapped and given to the writer; on
    [null] it throws before the writer is called. *)
Theorem undefined_is_skipped_null_throws (ev : Event) (res : Res.t) :
  subscriber (ev, VNull, VUndefined) res = ([], (Returned tt, res))
  /\ subscriber (ev, VNull, VNum 0) res
      = ([], sendResponse (mkDescriptor false (VNum 0) 200 []) res)
  /\ subscriber (ev, VNull, VBool false) res
      = ([], sendResponse (mkDescriptor false (VBool false) 200 []) res)
  /\ subscriber (ev, VNull, VStr EmptyString) res
      = ([], sendResponse (mkDescriptor false (VStr EmptyString) 200 []) res)
  /\ subscriber (ev, VNull, VNull) res
      = ([], (Threw (TypeError "Cannot read properties of null or undefined"), res)).
Proof. repeat split. Qed.

Lemma prepareErrorResponse_descriptor (d : Err.t value) :
  prepareErrorResponse (VResponseError d)
    = (if truthy (Err.originalError d)
       then stack (Err.originalError d) else stack (VResponseError d),
       mkDescriptor true (VStr (Err.message d)) (default 200 (Err.statusCode d)) []).
Proof. reflexivity. Qed.



(** ** What the writer writes, by kind of data *)

Lemma default_Content_Type_open (v : string) (res : Res.t) :
  Res.headersSent res = false ->
  default_Content_Type v res
    = (Returned tt,
       Res.mk (Res.statusCode res) (defaulted v (Res.headers res))
              (Res.body res) (Res.sent res) (Res.piped res)).
Proof.
  intros Hopen. apply open_not_sent in Hopen.
  unfold default_Content_Type, bind, getHeader, setHeader, defaulted, Res.headersSent.
  change (toLowerCase "Content-Type") with "content-type".
  destruct res as [c hs b f p]. simpl in *. subst f.
  destruct (hval_truthy (hs !! "content-type")); reflexivity.
Qed.

(** The writer up to the end of [forEach], on a response whose head is not
    sent. *)
Ltac apply_headers Hopen :=
  unfold sendResponse; simpl;
  unfold bind at 1; unfold set_statusCode at 1;
  unfold bind at 1; rewrite forEach_setHeader_open by exact Hopen.

Ltac end_open Hopen :=
  unfold bind, setHeader, res_end, write_end, lift, ret, Res.headersSent, Res.finished;
  simpl; rewrite (open_not_sent _ Hopen); reflexivity.

(** X1.  A buffer on a response whose head is not sent: the descriptor's
    status code and headers, [application/octet-stream] unless a truthy
    [Content-Type] is set, [Content-Length] the number of bytes, the bytes
    as the body, and the response ended. *)
Theorem buffer_is_written (tag : bool) (b : string) (code : Z)
    (hs : list (string * hval)) (res : Res.t) :
  Res.headersSent res = false ->
  sendResponse (mkDescriptor tag (VBuffer b) code hs) res
    = (Returned tt,
       Res.mk code
         (<["content-length" := HNum (Z.of_nat (String.length b))]>
            (defaulted "application/octet-stream" (applied hs (Res.headers res))))
         (Res.body res +:+ b) Res.Ended (Res.piped res)).
Proof.
  intros Hopen. apply_headers Hopen.
  unfold bind at 1. rewrite default_Content_Type_open by exact Hopen.
  end_open Hopen.
Qed.

(** X2.  A stream on a response whose head is not sent: the writer sets
    the descriptor's status code and headers, [application/octet-stream]
    unless a truthy [Content-Type] is set, and no [Content-Length]; it
    attaches the stream and returns with nothing written and the response
    not ended.  The stream then writes its content, and ends the response
    if it ends itself. *)
Theorem stream_is_piped (tag : bool) (content : string) (end_ : ending value)
    (code : Z) (hs : list (string * hval)) (res : Res.t) :
  Res.headersSent res = false ->
  sendResponse (mkDescriptor tag (VStream content end_) code hs) res
    = (Returned tt,
       Res.mk code
         (defaulted "application/octet-stream" (applied hs (Res.headers res)))
         (Res.body res) (Res.sent res) (Res.piped res ++ [VStream content end_]))
  /\ (Res.piped res = [] ->
      flow (snd (sendResponse (mkDescriptor tag (VStream content end_) code hs) res))
        = Res.mk code
            (defaulted "application/octet-stream" (applied hs (Res.headers res)))
            (Res.body res +:+ content)
            match end_ with
            | Completes => Res.Ended
            | _ => if String.eqb content EmptyString then Res.Open else Res.HeadSent
            end
            []).
Proof.
  intros Hopen.
  assert (Hsend : sendResponse (mkDescriptor tag (VStream content end_) code hs) res
                  = (Returned tt,
                     Res.mk code
                       (defaulted "application/octet-stream" (applied hs (Res.headers res)))
                       (Res.body res) (Res.sent res)
                       (Res.piped res ++ [VStream content end_]))).
  { apply_headers Hopen.
    unfold bind at 1. rewrite default_Content_Type_open by exact Hopen.
    reflexivity. }
  split; [exact Hsend |].
  intros Hpiped. rewrite Hsend, Hpiped. unfold flow, flow_of, Res.finished. simpl.
  rewrite (open_not_sent _ Hopen). reflexivity.
Qed.

(** X3.  A string on a response whose head is not sent: the descriptor's
    status code and headers, [Content-Length] the byte length of the string,
    the string as the body; no [Content-Type] is added. *)
Theorem string_is_written (tag : bool) (text : string) (code : Z)
    (hs : list (string * hval)) (res : Res.t) :
  Res.headersSent res = false ->
  sendResponse (mkDescriptor tag (VStr text) code hs) res
    = (Returned tt,
       Res.mk code
         (<["content-length" := HNum (Z.of_nat (String.length text))]>
            (applied hs (Res.headers res)))
         (Res.body res +:+ text) Res.Ended (Res.piped res)).
Proof.
  intros Hopen. apply_headers Hopen. end_open Hopen.
Qed.

(** X4.  An object or a number (not [null], a buffer or a stream) that
    [JSON.stringify] prints as [text], on a response whose head is not sent:
    the descriptor's status code and headers,
    [application/json; charset=utf-8] unless a truthy [Content-Type] is set,
    [Content-Length] the byte length of [text], and [text] as the body.  The
    printer is called with indentation 2 in development mode and with none
    otherwise. *)
Theorem json_is_written (response : Response) (text : string) (res : Res.t) :
  Res.headersSent res = false ->
  is_null (data response) = false ->
  Buffer_isBuffer (data response) = false ->
  is_stream (data response) = false ->
  typeof (data response) = "object" \/ typeof (data response) = "number" ->
  JSON_stringify (data response) (if DEV then 2 else 0)%nat = Returned (VStr text) ->
  sendResponse response res
    = (Returned tt,
       Res.mk (statusCode response)
         (<["content-length" := HNum (Z.of_nat (String.length text))]>
            (defaulted "application/json; charset=utf-8"
               (applied (headers response) (Res.headers res))))
         (Res.body res +:+ text) Res.Ended (Res.piped res)).
Proof.
  intros Hopen Hnull Hbuf Hstream Htype Hjson. unfold sendResponse.
  rewrite Hnull, Hbuf, Hstream.
  assert (Hcond : (String.eqb (typeof (data response)) "object"
                   || String.eqb (typeof (data response)) "number")%bool = true).
  { destruct Htype as [-> | ->]; reflexivity. }
  rewrite Hcond, Hjson.
  unfold bind at 1. unfold set_statusCode at 1.
  unfold bind at 1. rewrite forEach_setHeader_open by exact Hopen.
  unfold bind at 1. unfold bind at 1. unfold lift at 1.
  unfold bind at 1. rewrite default_Content_Type_open by exact Hopen.
  end_open Hopen.
Qed.

(** X5.  When [JSON.stringify] throws on the data and the head of the
    response is not sent, the writer throws the same exception: the status
    code and the headers of the descriptor are set, no [Content-Type]
    default and no [Content-Length] are added, nothing is written and the
    response is left as it was. *)
Theorem stringify_failure_propagates (response : Response) (e : value)
    (res : Res.t) :
  Res.headersSent res = false ->
  is_null (data response) = false ->
  Buffer_isBuffer (data response) = false ->
  is_stream (data response) = false ->
  typeof (data response) = "object" \/ typeof (data response) = "number" ->
  JSON_stringify (data response) (if DEV then 2 else 0)%nat = Threw e ->
  sendResponse response res
    = (Threw e,
       Res.mk (statusCode response)
         (applied (headers response) (Res.headers res)) (Res.body res)
         (Res.sent res) (Res.piped res)).
Proof.
  intros Hopen Hnull Hbuf Hstream Htype Hjson. unfold sendResponse.
  rewrite Hnull, Hbuf, Hstream.
  assert (Hcond : (String.eqb (typeof (data response)) "object"
                   || String.eqb (typeof (data response)) "number")%bool = true).
  { destruct Htype as [-> | ->]; reflexivity. }
  rewrite Hcond, Hjson.
  unfold bind at 1. unfold set_statusCode at 1.
  unfold bind at 1. rewrite forEach_setHeader_open by exact Hopen.
  reflexivity.
Qed.

(** X6.  A boolean is never written: on a response whose head is not sent
    the writer sets the status code and the headers of the descriptor and
    throws the [TypeError] of [Buffer.byteLength]; nothing is written and
    the response is left as it was. *)
Theorem boolean_is_not_written (tag b : bool) (code : Z)
    (hs : list (string * hval)) (res : Res.t) :
  Res.headersSent res = false ->
  sendResponse (mkDescriptor tag (VBool b) code hs) res
    = (Threw (TypeError "The string argument must be of type string or Buffer"),
       Res.mk code (applied hs (Res.headers res)) (Res.body res)
         (Res.sent res) (Res.piped res)).
Proof.
  intros Hopen. apply_headers Hopen. reflexivity.
Qed.

(** ** Invariants of the writer *)

Lemma always_bind {A B : Type} (I : Res.t -> Prop) (m : M A) (k : A -> M B) :
  always I m -> (forall a, always I (k a)) -> always I (bind m k).
Proof.
  intros Hm Hk res o res' HI H. unfold bind in H.
  destruct (m res) as [[a | e] res1] eqn:Hrun.
  - eapply Hk; [eapply Hm; eassumption | exact H].
  - inversion H; subst. eapply Hm; eassumption.
Qed.

Lemma always_forEach {A : Type} (I : Res.t -> Prop) (f : A -> M unit) (xs : list A) :
  (forall x, always I (f x)) -> always I (forEach f xs).
Proof.
  intros Hf. induction xs as [| x xs IH]; simpl.
  - intros res o res' HI H. inversion H; subst. exact HI.
  - apply always_bind; [apply Hf | intros _; exact IH].
Qed.

Lemma always_run {A : Type} (I : Res.t -> Prop) (m : M A) (res : Res.t) :
  always I m -> I res -> I (snd (m res)).
Proof.
  intros Hm HI. destruct (m res) as [o res'] eqn:Hrun. simpl.
  eapply Hm; eassumption.
Qed.

(** One call on the response handle, by cases on what it does. *)
Ltac always_call :=
  let res := fresh "res" in
  let o := fresh "o" in
  let res' := fresh "res'" in
  let HI := fresh "HI" in
  let H := fresh "H" in
  intros res o res' HI H;
  cbv [ret lift throw set_statusCode setHeader getHeader write_end res_end pipe_to
       Res.finished Res.headersSent] in H;
  repeat match type of H with
         | context [Res.sent ?r] => is_var r; destruct (Res.sent r) eqn:?
         | context [match ?x with _ => _ end] => destruct x eqn:?
         end;
  inversion H; subst; simpl in *; intuition congruence.

Ltac always_steps :=
  repeat first
    [ apply always_bind; [| intros ?]
    | apply always_forEach; intros ?
    | match goal with
      | |- always _ (if ?b then _ else _) => destruct b
      end
    | always_call ].

(** X7.  Whatever the data, and whether the writer returns or throws, the
    status code of the response is the descriptor's afterwards. *)
Theorem status_code_is_always_set (response : Response) (res : Res.t) :
  Res.statusCode (snd (sendResponse response res)) = statusCode response.
Proof.
  unfold sendResponse. unfold bind at 1. unfold set_statusCode at 1.
  apply (always_run (fun r => Res.statusCode r = statusCode response));
    [| reflexivity].
  always_steps.
Qed.

Lemma ended_is_kept (response : Response) (res : Res.t) :
  Res.sent res = Res.Ended ->
  Res.sent (snd (sendResponse response res)) = Res.Ended
  /\ Res.headers (snd (sendResponse response res)) = Res.headers res
  /\ Res.body (snd (sendResponse response res)) = Res.body res.
Proof.
  intros Hended.
  apply (always_run (fun r => Res.sent r = Res.Ended
                              /\ Res.headers r = Res.headers res
                              /\ Res.body r = Res.body res));
    [| auto].
  unfold sendResponse. always_steps.
Qed.

Lemma finished_is_ended (res : Res.t) :
  Res.finished res = true <-> Res.sent res = Res.Ended.
Proof. unfold Res.finished. destruct (Res.sent res); split; congruence. Qed.

(** X8.  On a response that is already ended, the writer changes neither
    the headers nor the body, whatever the descriptor, and the response
    stays ended. *)
Theorem ended_response_is_not_altered (response : Response) (res : Res.t) :
  Res.finished res = true ->
  Res.headers (snd (sendResponse response res)) = Res.headers res
  /\ Res.body (snd (sendResponse response res)) = Res.body res
  /\ Res.finished (snd (sendResponse response res)) = true.
Proof.
  intros Hended. apply finished_is_ended in Hended.
  destruct (ended_is_kept response res Hended) as (Hs & Hh & Hb).
  repeat split; [exact Hh | exact Hb | apply finished_is_ended; exact Hs].
Qed.

Lemma ends_or_quiet_bind {A B : Type} (m : M A) (k : A -> M B) :
  quiet m -> (forall a, ends_or_quiet (k a)) -> ends_or_quiet (bind m k).
Proof.
  intros Hm Hk res o res' H. unfold bind in H.
  destruct (m res) as [[a | e] res1] eqn:Hrun; apply Hm in Hrun as (Hb & Hs & _).
  - apply Hk in H. destruct o; [exact H |].
    destruct H as (Hb' & Hs'). split; congruence.
  - inversion H; subst. auto.
Qed.

Lemma ends_or_quiet_write_end (chunk : string) : ends_or_quiet (write_end chunk).
Proof.
  intros res o res' H. unfold write_end in H.
  destruct (Res.finished res) eqn:Hfin; inversion H; subst; simpl; auto.
Qed.

Lemma ends_or_quiet_res_end (chunk : value) : ends_or_quiet (res_end chunk).
Proof.
  destruct chunk; simpl; try apply ends_or_quiet_write_end;
    intros res o res' H; inversion H; subst; auto.
Qed.

Lemma pipes_or_quiet_bind {A B : Type} (data : value) (m : M A) (k : A -> M B) :
  quiet m -> (forall a, pipes_or_quiet data (k a)) -> pipes_or_quiet data (bind m k).
Proof.
  intros Hm Hk res o res' H. unfold bind in H.
  destruct (m res) as [[a | e] res1] eqn:Hrun; apply Hm in Hrun as (Hb & Hs & Hp).
  - apply Hk in H as (Hb' & Hs' & Hp'). rewrite Hb', Hs', Hp', Hb, Hs, Hp. auto.
  - inversion H; subst. auto.
Qed.

Lemma pipes_or_quiet_pipe_to (data : value) :
  is_stream data = true -> pipes_or_quiet data (pipe_to data).
Proof.
  intros Hstream. destruct data; try discriminate Hstream.
  intros res o res' H. inversion H; subst. simpl. auto.
Qed.

Ltac quiet_steps :=
  repeat first
    [ apply quiet_set_statusCode
    | apply forEach_setHeader_quiet
    | apply quiet_default_Content_Type
    | apply quiet_setHeader
    | apply quiet_lift
    | apply quiet_ret
    | match goal with
      | |- quiet (if ?b then _ else _) => destruct b
      end
    | apply quiet_bind; [| intros ?] ].

(** X9.  What the writer leaves.  When it returns on data that is not a
    stream, the response is ended.  When it returns on a stream, it has
    attached the stream to the response, written nothing and sent nothing:
    the response is as open as it was.  When it throws, it has written
    nothing to the body and sent nothing. *)
Theorem writer_ends_or_leaves_open (response : Response) (res : Res.t) :
  match sendResponse response res with
  | (Returned _, res') =>
      if is_stream (data response)
      then Res.body res' = Res.body res
           /\ Res.sent res' = Res.sent res
           /\ Res.piped res' = Res.piped res ++ [data response]
      else Res.finished res' = true
  | (Threw _, res') =>
      Res.body res' = Res.body res /\ Res.sent res' = Res.sent res
  end.
Proof.
  destruct (is_stream (data response)) eqn:Hstream.
  - assert (H : pipes_or_quiet (data response) (sendResponse response)).
    { unfold sendResponse. rewrite Hstream.
      assert (Hnull : is_null (data response) = false)
        by (destruct (data response); try discriminate Hstream; reflexivity).
      assert (Hbuf : Buffer_isBuffer (data response) = false)
        by (destruct (data response); try discriminate Hstream; reflexivity).
      rewrite Hnull, Hbuf.
      repeat first
        [ apply pipes_or_quiet_pipe_to; exact Hstream
        | apply pipes_or_quiet_bind; [quiet_steps | intros ?] ]. }
    destruct (sendResponse response res) as [o res'] eqn:Hrun.
    apply H in Hrun as (Hb & Hs & Hp). destruct o; auto.
  - assert (H : ends_or_quiet (sendResponse response)).
    { unfold sendResponse. rewrite Hstream.
      repeat first
        [ apply ends_or_quiet_res_end
        | match goal with
          | |- ends_or_quiet (if ?b then _ else _) => destruct b
          end
        | apply ends_or_quiet_bind; [quiet_steps | intros ?] ]. }
    destruct (sendResponse response res) as [o res'] eqn:Hrun.
    apply H in Hrun. destruct o; exact Hrun.
Qed.

(** X10.  A header that is on the response handle before the writer is
    called, and that the descriptor does not name, is still there with its
    value when the writer returns, provided it is not [Content-Length]
    unless the data is a stream, and that its value is truthy if it is
    [Content-Type]. *)
Theorem headers_of_the_handle_survive (response : Response) (res res' : Res.t)
    (key : string) (v : hval) :
  is_null (data response) = false ->
  sendResponse response res = (Returned tt, res') ->
  Res.headers res !! key = Some v ->
  Forall (fun h => toLowerCase (fst h) <> key) (headers response) ->
  (key = "content-length" -> is_stream (data response) = true) ->
  (key = "content-type" -> hval_truthy (Some v) = true) ->
  Res.headers res' !! key = Some v.
Proof.
  intros Hnn Hsend Hkey Hnames Hcl Hct.
  unfold sendResponse in Hsend. rewrite Hnn in Hsend.
  apply bind_returned in Hsend as (u0 & res0 & Hset & Hsend).
  apply bind_returned in Hsend as (u1 & res1 & Hfor & Hsend).
  inversion Hset; subst res0 u0; clear Hset.
  apply forEach_setHeader_returned in Hfor. simpl in Hfor.
  assert (Hres1 : Res.headers res1 !! key = Some v).
  { subst res1. simpl. rewrite applied_other by exact Hnames. exact Hkey. }
  match type of Hsend with
  | ?m _ = _ =>
      enough (Hkeeps : keeps (fun r => Res.headers r !! key = Some v) m)
        by exact (Hkeeps _ _ _ Hres1 Hsend)
  end.
  clear Hfor Hsend Hres1.
  destruct (is_stream (data response)) eqn:Hstream.
  - destruct (Buffer_isBuffer (data response)) eqn:Hbuf;
      [destruct (data response); discriminate |].
    keeps_steps.
  - assert (Hne : toLowerCase "Content-Length" <> key).
    { intros Heq. symmetry in Heq. apply Hcl in Heq. discriminate Heq. }
    destruct (Buffer_isBuffer (data response));
      [| destruct (String.eqb (typeof (data response)) "object"
                   || String.eqb (typeof (data response)) "number")%bool];
      keeps_steps.
Qed.

(** X11.  An error descriptor that carries no status code is written with
    status 200 and its message as the body, on a response whose head is not
    sent. *)
Theorem error_without_code_is_200 (d : Err.t value) (res : Res.t) :
  Res.headersSent res = false ->
  Err.statusCode d = None ->
  sendResponse (snd (prepareErrorResponse (VResponseError d))) res
    = (Returned tt,
       Res.mk 200
         (<["content-length" := HNum (Z.of_nat (String.length (Err.message d)))]>
            (Res.headers res))
         (Res.body res +:+ Err.message d) Res.Ended (Res.piped res)).
Proof.
  intros Hopen Hcode. rewrite prepareErrorResponse_descriptor, Hcode.
  apply sendResponse_string. exact Hopen.
Qed.

(** X12.  An object with [data], [statusCode] and [headers] fields that was
    not built by [send] is not taken for a descriptor: the subscriber
    wraps it as the data of a new descriptor, and the response has status
    200 whatever the object's [statusCode] says. *)
Theorem lookalike_descriptor_is_payload (r : Response) (ev : Event) (res : Res.t) :
  IS_RESPONSE r = false ->
  subscriber (ev, VNull, VDescriptor r) res
    = ([], sendResponse (mkDescriptor false (VDescriptor r) 200 []) res)
  /\ Res.statusCode (snd (snd (subscriber (ev, VNull, VDescriptor r) res))) = 200.
Proof.
  intros Htag.
  assert (Hsub : subscriber (ev, VNull, VDescriptor r) res
                 = ([], sendResponse (mkDescriptor false (VDescriptor r) 200 []) res)).
  { unfold subscriber, prepareResponse, isResponseObject. simpl.
    rewrite Htag. reflexivity. }
  split; [exact Hsub |]. rewrite Hsub. simpl.
  unfold sendResponse. unfold bind at 1. unfold set_statusCode at 1.
  apply (always_run (fun r0 => Res.statusCode r0 = 200)); [| reflexivity].
  simpl. always_steps.
Qed.

(** X19.  The subscriber on a response that is already ended, whatever the
    triple: the headers and the body are what they were and the response
    stays ended. *)
Theorem subscriber_leaves_ended_response (t : Triple) (res : Res.t) :
  Res.finished res = true ->
  Res.headers (snd (snd (subscriber t res))) = Res.headers res
  /\ Res.body (snd (snd (subscriber t res))) = Res.body res
  /\ Res.finished (snd (snd (subscriber t res))) = true.
Proof.
  intros Hended.
  assert (Hwriter : forall response,
             Res.headers (snd (sendResponse response res)) = Res.headers res
             /\ Res.body (snd (sendResponse response res)) = Res.body res
             /\ Res.finished (snd (sendResponse response res)) = true).
  { intros response.
    destruct (ended_is_kept response res (proj1 (finished_is_ended res) Hended))
      as (Hs & Hh & Hb).
    repeat split; [exact Hh | exact Hb | apply finished_is_ended; exact Hs]. }
  destruct t as [[ev err] val]. unfold subscriber.
  destruct (truthy err).
  - destruct (prepareErrorResponse err) as [line response]. simpl.
    apply Hwriter.
  - destruct (is_defined val); [| simpl; auto].
    destruct (prepareResponse val) as [response | e]; simpl; [| auto].
    apply Hwriter.
Qed.

End Pipeline.
(** ** The properties at concrete requests *)

Lemma promise_is_the_terminal_value_witness :
  Examples.returns (VPromise (Rejected (VStr "late"))) (Rx.of_ Examples.ev0)
    = Returned (VPromise (Rejected (VStr "late")))
  /\ dispatch (Examples.returns (VPromise (Rejected (VStr "late")))) Examples.ev0
     = mkObservable [(Examples.ev0, VNull, VPromise (Rejected (VStr "late")))] Completes.
Proof.
  split; [reflexivity |].
  apply (promise_is_the_terminal_value
           (Examples.returns (VPromise (Rejected (VStr "late")))) Examples.ev0).
  reflexivity.
Defined.

(** A promise fulfilled with [ok] does not make [ok] the value of the
    request, and a promise rejected with [no] does not make [no] its
    error. *)
Lemma promise_is_not_awaited :
  emitted (dispatch (Examples.returns (VPromise (Fulfilled (VStr "ok")))) Examples.ev0)
    <> [(Examples.ev0, VNull, VStr "ok")]
  /\ emitted (dispatch (Examples.returns (VPromise (Rejected (VStr "no")))) Examples.ev0)
     <> [(Examples.ev0, VStr "no", VNull)].
Proof. split; intros H; vm_compute in H; discriminate H. Qed.

(** A sequence of two values gives two triples, not the one of its last
    value; an empty sequence gives none. *)
Lemma sequence_is_not_reduced :
  emitted (dispatch (Examples.returns (VObservable [VNum 1; VNum 2] Completes)) Examples.ev0)
    = [(Examples.ev0, VNull, VNum 1); (Examples.ev0, VNull, VNum 2)]
  /\ emitted (dispatch (Examples.returns (VObservable [VNum 1; VNum 2] Completes)) Examples.ev0)
     <> [(Examples.ev0, VNull, VNum 2)]
  /\ emitted (dispatch (Examples.returns (VObservable [] Completes)) Examples.ev0) = [].
Proof.
  split; [reflexivity | split; [| reflexivity]].
  intros H; vm_compute in H; discriminate H.
Qed.

(** [send('hello', 200, { 'Content-Length': '99' })]: the header of the
    descriptor is replaced by the byte length of the body. *)
Lemma explicit_Content_Length_is_overwritten :
  exists res',
    sendResponse false Json.stringify
      (send (VStr "hello") (Some 200) (Some [("Content-Length", HStr "99")])) Res.fresh
      = (Returned tt, res')
    /\ Res.headers res' !! "content-length" = Some (HNum 5)
    /\ Res.headers res' !! "content-length" <> Some (HStr "99").
Proof.
  eexists. split; [vm_compute; reflexivity |].
  split; [reflexivity | discriminate].
Qed.

Lemma explicit_headers_kept_witness :
  Res.headers
    (snd (sendResponse false Json.stringify
            (send (VObject [("a", VNum 1)]) (Some 201)
               (Some [("X-Trace", HStr "t1"); ("Content-Type", HStr "text/plain")]))
            Res.fresh))
    !! toLowerCase "X-Trace" = Some (HStr "t1").
Proof.
  refine (proj1 (explicit_headers_kept false Json.stringify
                   (send (VObject [("a", VNum 1)]) (Some 201)
                      (Some [("X-Trace", HStr "t1"); ("Content-Type", HStr "text/plain")]))
                   Res.fresh _ _ _)
            [] [("Content-Type", HStr "text/plain")] "X-Trace" (HStr "t1") _ _ _ _).
  - reflexivity.
  - vm_compute. reflexivity.
  - reflexivity.
  - constructor; [| constructor]. intros H. vm_compute in H. discriminate H.
  - intros H. vm_compute in H. discriminate H.
  - intros H. vm_compute in H. discriminate H.
Defined.

(** An empty [Content-Type] of the descriptor is falsy for the guard of the
    default, and of two names that differ by letter case the later one is
    the one written. *)
Example empty_Content_Type_gets_the_default :
  Res.headers
    (snd (sendResponse false Json.stringify
            (send (VNum 1) (Some 200) (Some [("Content-Type", HStr EmptyString)]))
            Res.fresh))
    !! "content-type" = Some (HStr "application/json; charset=utf-8").
Proof. vm_compute. reflexivity. Qed.

Example later_name_wins :
  Res.headers
    (snd (sendResponse false Json.stringify
            (send (VStr "x") (Some 200) (Some [("X-A", HStr "1"); ("x-a", HStr "2")]))
            Res.fresh))
    !! "x-a" = Some (HStr "2").
Proof. vm_compute. reflexivity. Qed.



(** A sequence that delivers a value and then fails: the value is written
    first, and the failure finds the head of the response sent. *)
Example failure_after_a_value :
  respond false Json.stringify
    (Examples.returns
       (VObservable [VStr "ok"]
          (Fails (VResponseError (createError (Some 404) (Some "Not Found") VUndefined)))))
    Examples.ev0 Res.fresh
  = ([VStr "Error: Not Found"],
     (Threw ERR_HTTP_HEADERS_SENT,
      Res.mk 404 (<["content-length" := HNum 2]> ∅) "ok" Res.Ended [])).
Proof. vm_compute. reflexivity. Qed.

Lemma null_data_skips_headers_witness :
  data (send VNull (Some 204) (Some [("X-Trace", HStr "t1")])) = VNull
  /\ exists res',
       sendResponse false Json.stringify
         (send VNull (Some 204) (Some [("X-Trace", HStr "t1")])) Res.fresh
         = (Returned tt, res')
       /\ Res.statusCode res' = 204
       /\ Res.headers res' = ∅
       /\ Res.body res' = EmptyString
       /\ Res.finished res' = true.
Proof.
  split; [reflexivity |].
  exact (null_data_skips_headers false Json.stringify
           (send VNull (Some 204) (Some [("X-Trace", HStr "t1")])) Res.fresh eq_refl).
Defined.

Lemma undefined_data_throws_witness :
  data (send VUndefined None None) = VUndefined
  /\ exists e res',
       sendResponse false Json.stringify (send VUndefined None None) Res.fresh
         = (Threw e, res')
       /\ Res.body res' = EmptyString
       /\ Res.finished res' = false
       /\ (false = false \/ @nil (string * hval) = [] ->
           e = TypeError "The string argument must be of type string or Buffer")
       /\ (false = true -> @nil (string * hval) <> [] ->
           e = ERR_HTTP_HEADERS_SENT).
Proof.
  split; [reflexivity |].
  exact (undefined_data_throws false Json.stringify
           (send VUndefined None None) Res.fresh eq_refl).
Defined.

(** ** The scenarios of the specification *)

(** A handler returns [{ a: 1 }] outside development mode. *)
Example scenario_json :
  respond false Json.stringify (Examples.returns (VObject [("a", VNum 1)]))
    Examples.ev0 Res.fresh
  = ([], (Returned tt,
          Res.mk 200
            (<["content-type" := HStr "application/json; charset=utf-8"]>
               (<["content-length" := HNum 7]> ∅))
            ("{" +:+ Json.quote "a" +:+ ":1}") Res.Ended [])).
Proof. vm_compute. reflexivity. Qed.

(** A handler returns a readable stream of [hello]: the writer returns with
    the stream attached, and the stream then writes the body and ends the
    response. *)
Example scenario_stream :
  respond false Json.stringify (Examples.returns (VStream "hello" Completes))
    Examples.ev0 Res.fresh
  = ([], (Returned tt,
          Res.mk 200 (<["content-type" := HStr "application/octet-stream"]> ∅)
            EmptyString Res.Open [VStream "hello" Completes]))
  /\ flow (snd (snd (respond false Json.stringify
                       (Examples.returns (VStream "hello" Completes))
                       Examples.ev0 Res.fresh)))
     = Res.mk 200 (<["content-type" := HStr "application/octet-stream"]> ∅)
         "hello" Res.Ended [].
Proof. split; vm_compute; reflexivity. Qed.

(** A handler throws [createError(404, 'Not Found')]. *)
Example scenario_not_found :
  respond false Json.stringify
    (Examples.throws (VResponseError (createError (Some 404) (Some "Not Found") VUndefined)))
    Examples.ev0 Res.fresh
  = ([VStr "Error: Not Found"],
     (Returned tt,
      Res.mk 404 (<["content-length" := HNum 9]> ∅) "Not Found" Res.Ended [])).
Proof. vm_compute. reflexivity. Qed.

(** A handler ends the response itself and returns [undefined]. *)
Example scenario_manual :
  respond false Json.stringify (Examples.returns VUndefined) Examples.ev0
    (Res.mk 200 ∅ "manual" Res.Ended [])
  = ([], (Returned tt, Res.mk 200 ∅ "manual" Res.Ended [])).
Proof. reflexivity. Qed.

(** ** More on dispatch and the request source *)

Lemma merge_end_fails {B : Type} (inners : list (Observable B))
    (source_fin : ending value) (e : value) :
  Forall (fun i => forall e', fin i <> Fails e') inners ->
  Rx.merge_end inners source_fin = Fails e <-> source_fin = Fails e.
Proof.
  induction 1 as [| i inners Hi _ IH]; simpl; [reflexivity |].
  destruct (fin i) eqn:Hfin; simpl.
  - exact IH.
  - exfalso. eapply Hi. reflexivity.
  - destruct (Rx.merge_end inners source_fin) eqn:Hm; split; intros H;
      try discriminate H.
    + apply IH in H. discriminate H.
    + apply IH. exact H.
    + apply IH in H. congruence.
    + apply IH in H. discriminate H.
Qed.

Lemma merge_end_completes {B : Type} (inners : list (Observable B))
    (source_fin : ending value) :
  Forall (fun i => forall e', fin i <> Fails e') inners ->
  Rx.merge_end inners source_fin = Completes
  <-> source_fin = Completes /\ Forall (fun i => fin i = Completes) inners.
Proof.
  induction 1 as [| i inners Hi _ IH]; simpl.
  - split; [intros H; split; [exact H | constructor] | intros [H _]; exact H].
  - destruct (fin i) eqn:Hfin; simpl.
    + rewrite IH. split; intros [Hs Hall]; (split; [exact Hs |]).
      * constructor; assumption.
      * inversion Hall; assumption.
    + exfalso. eapply Hi. reflexivity.
    + split.
      * destruct (Rx.merge_end inners source_fin); discriminate.
      * intros [_ Hall]. inversion Hall; congruence.
Qed.

Lemma inner_sequences_never_fail (handler : Handler) (evs : list Event) :
  Forall (fun i : Observable Triple => forall e, fin i <> Fails e)
    (List.map (dispatch handler) evs).
Proof.
  apply List.Forall_forall. intros i Hin.
  apply in_map_iff in Hin as (ev & <- & _). intros e.
  unfold dispatch, mapToObservable, Rx.catchError, Rx.map.
  destruct (handler (Rx.of_ ev)) as [v | err]; [destruct v |]; simpl;
    try discriminate.
  match goal with |- context [match ?f with Fails _ => _ | _ => _ end] => destruct f end;
    simpl; discriminate.
Qed.

Lemma take_from_later {B : Type} (i : nat) (q : list B) (rest : list (list B)) :
  Rx.take_from (S i) (q :: rest)
    = match Rx.take_from i rest with
      | Some (x, rest') => Some (x, q :: rest')
      | None => None
      end.
Proof. destruct q; reflexivity. Qed.

Lemma take_from_Permutation {B : Type} (i : nat) (queues queues' : list (list B))
    (x : B) :
  Rx.take_from i queues = Some (x, queues') ->
  concat queues ≡ₚ x :: concat queues'.
Proof.
  revert i queues'. induction queues as [| q rest IH]; intros i queues' H.
  - destruct i; discriminate H.
  - destruct i as [| i'].
    + destruct q as [| y q']; simpl in H; [discriminate H |].
      inversion H; subst. reflexivity.
    + rewrite take_from_later in H.
      destruct (Rx.take_from i' rest) as [[y rest'] |] eqn:Hrest; [| discriminate H].
      inversion H; subst.
      change (q ++ concat rest ≡ₚ x :: (q ++ concat rest')).
      rewrite (IH _ _ Hrest). symmetry. apply Permutation_middle.
Qed.

Lemma interleave_Permutation {B : Type} (order : list nat)
    (queues kept : list (list B)) (out : list B) :
  Rx.interleave order queues = (out, kept) ->
  out ++ concat kept ≡ₚ concat queues.
Proof.
  revert queues kept out. induction order as [| i order IH];
    intros queues kept out H; simpl in H.
  - inversion H; subst. reflexivity.
  - destruct (Rx.take_from i queues) as [[x queues'] |] eqn:Htake.
    + destruct (Rx.interleave order queues') as [out' kept'] eqn:Hrest.
      inversion H; subst. simpl.
      rewrite (IH _ _ _ Hrest). symmetry. apply take_from_Permutation with i.
      exact Htake.
    + apply IH. exact H.
Qed.

Lemma filter_none {B : Type} (P : B -> Prop) {Hdec : forall x, Decision (P x)} (l : list B) :
  Forall (fun x => ~ P x) l -> filter P l = [].
Proof.
  induction 1 as [| x l Hx _ IH]; [reflexivity |].
  rewrite filter_cons_False by exact Hx. exact IH.
Qed.

Lemma filter_all {B : Type} (P : B -> Prop) {Hdec : forall x, Decision (P x)} (l : list B) :
  Forall P l -> filter P l = l.
Proof.
  induction 1 as [| x l Hx _ IH]; [reflexivity |].
  rewrite filter_cons_True by exact Hx. rewrite IH. reflexivity.
Qed.

Lemma filter_concat_none {B : Type} (P : B -> Prop) {Hdec : forall x, Decision (P x)}
    (queues : list (list B)) :
  Forall (Forall (fun x => ~ P x)) queues -> filter P (concat queues) = [].
Proof.
  induction 1 as [| q rest Hq _ IH]; [reflexivity |].
  simpl. rewrite filter_app, IH, (filter_none P q Hq). reflexivity.
Qed.

Lemma take_from_none {B : Type} (P : B -> Prop) (i : nat)
    (queues queues' : list (list B)) (x : B) :
  Forall (Forall (fun x => ~ P x)) queues ->
  Rx.take_from i queues = Some (x, queues') ->
  ~ P x /\ Forall (Forall (fun x => ~ P x)) queues'.
Proof.
  intros Hall. revert i queues'.
  induction Hall as [| q rest Hq Hrest IH]; intros i queues' H.
  - destruct i; discriminate H.
  - destruct i as [| i'].
    + destruct q as [| y q']; simpl in H; [discriminate H |].
      inversion H; subst. inversion Hq; subst. split; [assumption |].
      constructor; assumption.
    + rewrite take_from_later in H.
      destruct (Rx.take_from i' rest) as [[y rest'] |] eqn:Htake; [| discriminate H].
      inversion H; subst. destruct (IH _ _ Htake) as [Hx Hrest'].
      split; [exact Hx |]. constructor; assumption.
Qed.

Lemma take_from_filter {B : Type} (P : B -> Prop) {Hdec : forall x, Decision (P x)}
    (i : nat) (queues queues' : list (list B)) (x : B) :
  apart P queues ->
  Rx.take_from i queues = Some (x, queues') ->
  apart P queues' /\ filter P (concat queues) = filter P (x :: concat queues').
Proof.
  revert i queues'. induction queues as [| q rest IH]; intros i queues' Hapart H.
  - destruct i; discriminate H.
  - destruct i as [| i'].
    + destruct q as [| y q']; simpl in H; [discriminate H |].
      inversion H; subst. split; [| reflexivity].
      destruct Hapart as [[Hq Hrest] | Hrest]; [left | right; exact Hrest].
      inversion Hq; subst. split; assumption.
    + rewrite take_from_later in H.
      destruct (Rx.take_from i' rest) as [[y rest'] |] eqn:Htake; [| discriminate H].
      inversion H; subst.
      change (concat (q :: rest)) with (q ++ concat rest).
      change (x :: concat (q :: rest')) with (x :: (q ++ concat rest')).
      destruct Hapart as [[Hq Hrest] | Hrest].
      * destruct (IH _ _ Hrest Htake) as [Hrest' Hfilter].
        split; [left; split; assumption |].
        rewrite filter_app, (filter_none P q Hq), Hfilter. simpl.
        rewrite !filter_cons. destruct (decide (P x)).
        -- rewrite filter_app, (filter_none P q Hq). reflexivity.
        -- rewrite filter_app, (filter_none P q Hq). reflexivity.
      * destruct (take_from_none P _ _ _ _ Hrest Htake) as [Hx Hrest'].
        split; [right; exact Hrest' |].
        rewrite filter_cons_False by exact Hx.
        rewrite !filter_app, (filter_concat_none P rest Hrest),
          (filter_concat_none P rest' Hrest').
        reflexivity.
Qed.

Lemma interleave_filter {B : Type} (P : B -> Prop) {Hdec : forall x, Decision (P x)}
    (order : list nat) (queues kept : list (list B)) (out : list B) :
  apart P queues ->
  Rx.interleave order queues = (out, kept) ->
  filter P (out ++ concat kept) = filter P (concat queues).
Proof.
  revert queues kept out. induction order as [| i order IH];
    intros queues kept out Hapart H; simpl in H.
  - inversion H; subst. reflexivity.
  - destruct (Rx.take_from i queues) as [[x queues'] |] eqn:Htake.
    + destruct (Rx.interleave order queues') as [out' kept'] eqn:Hrest.
      inversion H; subst.
      destruct (take_from_filter P _ _ _ _ Hapart Htake) as [Hapart' Hfilter].
      rewrite Hfilter. change ((x :: out') ++ concat kept) with (x :: (out' ++ concat kept)).
      rewrite !filter_cons. rewrite (IH _ _ _ Hapart' Hrest). reflexivity.
    + apply (IH _ _ _ Hapart H).
Qed.

Lemma triples_carry_the_event (handler : Handler) (ev : Event) :
  Forall (fun t : Triple => fst (fst t) = ev) (emitted (dispatch handler ev)).
Proof.
  assert (Hmap : forall items : list value,
             Forall (fun t : Triple => fst (fst t) = ev)
               (List.map (fun v => (ev, VNull, v)) items)).
  { intros items. apply List.Forall_forall. intros t Hin.
    apply in_map_iff in Hin as (v & <- & _). reflexivity. }
  unfold dispatch, mapToObservable, Rx.catchError, Rx.map.
  destruct (handler (Rx.of_ ev)) as [v | err]; [destruct v |]; simpl;
    try (repeat constructor).
  match goal with |- context [match ?f with Fails _ => _ | _ => _ end] => destruct f end;
    simpl; rewrite ?app_nil_r; try apply Hmap.
  apply Forall_app. split; [apply Hmap | repeat constructor].
Qed.

Lemma other_request_triples (handler : Handler) (ev ev' : Event) :
  ev' <> ev ->
  Forall (fun t : Triple => ~ fst (fst t) = ev) (emitted (dispatch handler ev')).
Proof.
  intros Hne. eapply Forall_impl; [apply triples_carry_the_event |].
  intros t Ht Heq. simpl in *. congruence.
Qed.

Lemma later_requests_triples (handler : Handler) (ev : Event) (evs : list Event) :
  ev ∉ evs ->
  Forall (Forall (fun t : Triple => ~ fst (fst t) = ev))
    (List.map (fun ev' => emitted (dispatch handler ev')) evs).
Proof.
  intros Hnotin. apply List.Forall_forall. intros q Hin.
  apply in_map_iff in Hin as (ev' & <- & Hin').
  apply other_request_triples. intros ->. apply Hnotin.
  apply list_elem_of_In. exact Hin'.
Qed.

Lemma requests_apart (handler : Handler) (ev : Event) (evs : list Event) :
  NoDup evs ->
  apart (fun t : Triple => fst (fst t) = ev)
    (List.map (fun ev' => emitted (dispatch handler ev')) evs).
Proof.
  induction 1 as [| ev' evs Hnotin _ IH]; simpl; [exact I |].
  destruct (decide (ev' = ev)) as [-> | Hne].
  - right. apply later_requests_triples. exact Hnotin.
  - left. split; [apply other_request_triples; exact Hne | exact IH].
Qed.

Lemma triples_of_one_request (handler : Handler) (ev : Event) (evs : list Event) :
  NoDup evs ->
  ev ∈ evs ->
  filter (fun t : Triple => fst (fst t) = ev)
    (concat (List.map (fun ev' => emitted (dispatch handler ev')) evs))
  = emitted (dispatch handler ev).
Proof.
  induction 1 as [| ev' evs Hnotin _ IH]; intros Hin; [inversion Hin |].
  simpl. rewrite filter_app.
  destruct (decide (ev' = ev)) as [-> | Hne].
  - rewrite (filter_all _ _ (triples_carry_the_event handler ev)).
    rewrite (filter_concat_none _ _ (later_requests_triples handler ev evs Hnotin)).
    apply app_nil_r.
  - rewrite (filter_none _ _ (other_request_triples handler ev ev' Hne)).
    apply IH. apply elem_of_cons in Hin as [-> | Hin]; [contradiction | exact Hin].
Qed.

(** X13.  For the pipeline, a handler that throws [e] is a handler that
    returns [throwError(e)], and a handler that returns a value that is
    not a sequence is a handler that returns [of] that value: the triples
    and the end of the request's sequence are the same. *)
Theorem handler_results_as_sequences (h1 h2 : Handler) (ev : Event) :
  (forall e,
      h1 (Rx.of_ ev) = Threw e ->
      h2 (Rx.of_ ev) = Returned (VObservable [] (Fails e)) ->
      dispatch h1 ev = dispatch h2 ev)
  /\ (forall v,
      h1 (Rx.of_ ev) = Returned v ->
      (forall items end_, v <> VObservable items end_) ->
      h2 (Rx.of_ ev) = Returned (VObservable [v] Completes) ->
      dispatch h1 ev = dispatch h2 ev).
Proof.
  split.
  - intros e H1 H2. unfold dispatch, mapToObservable. rewrite H1, H2. reflexivity.
  - intros v H1 Hv H2. unfold dispatch, mapToObservable. rewrite H1, H2.
    destruct v; try reflexivity. exfalso. eapply Hv. reflexivity.
Qed.

(** X14.  The sequence of a request never fails: it completes, unless the
    handler returned a sequence that never ends, in which case it stays
    open. *)
Theorem request_sequence_ending (handler : Handler) (ev : Event) :
  fin (dispatch handler ev)
    = match handler (Rx.of_ ev) with
      | Returned (VObservable _ Pending) => Pending
      | _ => Completes
      end.
Proof.
  unfold dispatch, mapToObservable, Rx.catchError, Rx.map.
  destruct (handler (Rx.of_ ev)) as [v | err]; [destruct v |]; simpl;
    try reflexivity.
  match goal with |- context [match ?f with Fails _ => _ | _ => _ end] => destruct f end;
    reflexivity.
Qed.

(** X15.  Whatever the order in which the requests deliver, the sequence
    of triples fails exactly when the sequence of request events fails, and
    with the same failure: nothing a handler throws or returns fails the
    pipeline. *)
Theorem run_fails_with_its_source (order : list nat) (handler : Handler)
    (request__ : Observable Event) (e : value) :
  fin (run order handler request__) = Fails e <-> fin request__ = Fails e.
Proof.
  unfold run, Rx.mergeMap. rewrite merge_fin.
  apply merge_end_fails. apply inner_sequences_never_fail.
Qed.

(** X16.  When the sequence of request events does not fail, the triples
    of the pipeline are the triples of every request event, each once,
    whatever the order in which the requests deliver; across requests they
    come in that order, not in the order of the events, and the triples of
    one request (of distinct request events) come in the order of that
    request's sequence.  The pipeline completes exactly when the source has
    completed and the sequence of every request has. *)
Theorem run_emits_every_request (order : list nat) (handler : Handler)
    (request__ : Observable Event) :
  ((forall e, fin request__ <> Fails e) ->
   emitted (run order handler request__)
     ≡ₚ concat (List.map (fun ev => emitted (dispatch handler ev)) (emitted request__)))
  /\ ((forall e, fin request__ <> Fails e) ->
      NoDup (emitted request__) ->
      forall ev, ev ∈ emitted request__ ->
        filter (fun t : Triple => fst (fst t) = ev) (emitted (run order handler request__))
          = emitted (dispatch handler ev))
  /\ (fin (run order handler request__) = Completes
      <-> fin request__ = Completes
          /\ Forall (fun ev => fin (dispatch handler ev) = Completes) (emitted request__)).
Proof.
  assert (Hemitted : (forall e, fin request__ <> Fails e) ->
            exists out kept,
              Rx.interleave order
                (List.map (fun ev => emitted (dispatch handler ev)) (emitted request__))
                = (out, kept)
              /\ emitted (run order handler request__) = out ++ concat kept).
  { intros Hsource. unfold run, Rx.mergeMap, Rx.merge. rewrite List.map_map.
    destruct (Rx.interleave order
                (List.map (fun ev => emitted (dispatch handler ev)) (emitted request__)))
      as [out kept] eqn:Hinter.
    exists out, kept. split; [reflexivity |]. simpl.
    destruct (Rx.merge_end (List.map (dispatch handler) (emitted request__))
                (fin request__)) eqn:Hend; try reflexivity.
    exfalso. apply merge_end_fails in Hend; [| apply inner_sequences_never_fail].
    eapply Hsource. exact Hend. }
  split; [| split].
  - intros Hsource. destruct (Hemitted Hsource) as (out & kept & Hinter & ->).
    apply interleave_Permutation in Hinter. exact Hinter.
  - intros Hsource Hnodup ev Hin.
    destruct (Hemitted Hsource) as (out & kept & Hinter & ->).
    rewrite (interleave_filter _ _ _ _ _ (requests_apart handler ev _ Hnodup) Hinter).
    apply triples_of_one_request; assumption.
  - unfold run, Rx.mergeMap. rewrite merge_fin.
    rewrite merge_end_completes by apply inner_sequences_never_fail.
    rewrite List.Forall_map. reflexivity.
Qed.

(** X17.  A server that is created, listens and is never closed: every
    connection it accepts is a request event, in order, and the sequence
    neither completes nor fails. *)
Theorem server_never_closed_stays_open (server : Server)
    (onCreate : Server -> outcome unit) (evs : list Event) :
  onCreate server = Returned tt ->
  arrivals server = List.map Accepted evs ->
  createServerObservable (Returned server) onCreate = mkObservable evs Pending.
Proof.
  intros Hcreate Harrivals. unfold createServerObservable.
  rewrite Hcreate, Harrivals. clear.
  induction evs as [| ev evs IH]; simpl; [reflexivity |].
  rewrite IH. reflexivity.
Qed.

(** X18.  The development flag and [JSON.stringify] only matter for data
    that is an object or a number: on [null], a buffer, a stream, or data
    of any other type, the writer does the same whatever they are. *)
Theorem only_json_depends_on_the_platform (DEV1 DEV2 : bool)
    (JSON1 JSON2 : value -> nat -> outcome value)
    (response : Response) (res : Res.t) :
  is_null (data response) = true
  \/ Buffer_isBuffer (data response) = true
  \/ is_stream (data response) = true
  \/ (typeof (data response) <> "object" /\ typeof (data response) <> "number") ->
  sendResponse DEV1 JSON1 response res = sendResponse DEV2 JSON2 response res.
Proof.
  intros H. destruct response as [tag d code hs]. unfold sendResponse. simpl in *.
  destruct d; simpl in *; try reflexivity;
    destruct H as [H | [H | [H | [H1 H2]]]]; try discriminate H;
    exfalso; try (apply H1; reflexivity); apply H2; reflexivity.
Qed.

(** X20.  [send(data)] with no status code and no headers is written as
    [data] itself would be, for data that is not [null], [undefined] or
    already a descriptor built by [send]. *)
Theorem send_with_defaults_is_the_value (DEV : bool)
    (JSON_stringify : value -> nat -> outcome value)
    (d : value) (ev : Event) (res : Res.t) :
  d <> VNull ->
  d <> VUndefined ->
  (forall r, d = VDescriptor r -> IS_RESPONSE r = false) ->
  subscriber DEV JSON_stringify (ev, VNull, VDescriptor (send d None None)) res
    = subscriber DEV JSON_stringify (ev, VNull, d) res.
Proof.
  intros Hnull Hundef Htag. unfold subscriber, prepareResponse, isResponseObject.
  destruct d; try reflexivity; try contradiction.
  simpl. rewrite (Htag r eq_refl). reflexivity.
Qed.

(** ** These properties at concrete requests *)

Lemma send_with_defaults_is_the_value_witness :
  subscriber false Json.stringify
    (Examples.ev0, VNull, VDescriptor (send (VNum 0) None None)) Res.fresh
  = subscriber false Json.stringify (Examples.ev0, VNull, VNum 0) Res.fresh.
Proof.
  refine (send_with_defaults_is_the_value false Json.stringify (VNum 0)
            Examples.ev0 Res.fresh _ _ _);
    intros; discriminate.
Defined.

Lemma buffer_is_written_witness :
  Res.headersSent Res.fresh = false
  /\ sendResponse false Json.stringify (mkDescriptor true (VBuffer "abc") 200 []) Res.fresh
     = (Returned tt,
        Res.mk 200
          (<["content-length" := HNum 3]>
             (<["content-type" := HStr "application/octet-stream"]> ∅))
          "abc" Res.Ended []).
Proof.
  split; [reflexivity |].
  exact (buffer_is_written false Json.stringify true "abc" 200 [] Res.fresh eq_refl).
Defined.

Lemma stream_is_piped_witness :
  Res.headersSent Res.fresh = false
  /\ sendResponse false Json.stringify
       (mkDescriptor true (VStream "hello" Completes) 200
          [("Content-Type", HStr "text/plain")])
       Res.fresh
     = (Returned tt,
        Res.mk 200 (<["content-type" := HStr "text/plain"]> ∅) EmptyString Res.Open
          [VStream "hello" Completes])
  /\ flow (snd (sendResponse false Json.stringify
                  (mkDescriptor true (VStream "hello" Completes) 200
                     [("Content-Type", HStr "text/plain")])
                  Res.fresh))
     = Res.mk 200 (<["content-type" := HStr "text/plain"]> ∅) "hello" Res.Ended [].
Proof.
  split; [reflexivity |].
  split.
  - exact (proj1 (stream_is_piped false Json.stringify true "hello" Completes 200
                    [("Content-Type", HStr "text/plain")] Res.fresh eq_refl)).
  - exact (proj2 (stream_is_piped false Json.stringify true "hello" Completes 200
                    [("Content-Type", HStr "text/plain")] Res.fresh eq_refl)
             eq_refl).
Defined.

Lemma string_is_written_witness :
  Res.headersSent Res.fresh = false
  /\ sendResponse false Json.stringify
       (mkDescriptor false (VStr "hi") 200 [("X-Trace", HStr "t1")]) Res.fresh
     = (Returned tt,
        Res.mk 200
          (<["content-length" := HNum 2]> (<["x-trace" := HStr "t1"]> ∅))
          "hi" Res.Ended []).
Proof.
  split; [reflexivity |].
  exact (string_is_written false Json.stringify false "hi" 200
           [("X-Trace", HStr "t1")] Res.fresh eq_refl).
Defined.

Lemma json_is_written_witness :
  sendResponse true Json.stringify (mkDescriptor false (VArray [VNum 1]) 200 []) Res.fresh
  = (Returned tt,
     Res.mk 200
       (<["content-length" := HNum 7]>
          (<["content-type" := HStr "application/json; charset=utf-8"]> ∅))
       ("[" +:+ Json.newline +:+ "  1" +:+ Json.newline +:+ "]") Res.Ended []).
Proof.
  exact (json_is_written true Json.stringify
           (mkDescriptor false (VArray [VNum 1]) 200 [])
           ("[" +:+ Json.newline +:+ "  1" +:+ Json.newline +:+ "]") Res.fresh
           eq_refl eq_refl eq_refl eq_refl (or_introl eq_refl) eq_refl).
Defined.

Lemma stringify_failure_propagates_witness :
  sendResponse false (fun _ _ => Threw (TypeError "Converting circular structure to JSON"))
    (mkDescriptor true (VObject []) 201 [("X-Trace", HStr "t1")]) Res.fresh
  = (Threw (TypeError "Converting circular structure to JSON"),
     Res.mk 201 (<["x-trace" := HStr "t1"]> ∅) EmptyString Res.Open []).
Proof.
  exact (stringify_failure_propagates false
           (fun _ _ => Threw (TypeError "Converting circular structure to JSON"))
           (mkDescriptor true (VObject []) 201 [("X-Trace", HStr "t1")])
           (TypeError "Converting circular structure to JSON") Res.fresh
           eq_refl eq_refl eq_refl eq_refl (or_introl eq_refl) eq_refl).
Defined.

Lemma boolean_is_not_written_witness :
  Res.headersSent Res.fresh = false
  /\ sendResponse false Json.stringify (mkDescriptor false (VBool false) 200 []) Res.fresh
     = (Threw (TypeError "The string argument must be of type string or Buffer"),
        Res.mk 200 ∅ EmptyString Res.Open []).
Proof.
  split; [reflexivity |].
  exact (boolean_is_not_written false Json.stringify false false 200 [] Res.fresh eq_refl).
Defined.

Lemma ended_response_is_not_altered_witness :
  Res.finished (Res.mk 200 ∅ "manual" Res.Ended []) = true
  /\ Res.body (snd (sendResponse false Json.stringify
                      (send (VStr "late") (Some 404) (Some [("X-Trace", HStr "t1")]))
                      (Res.mk 200 ∅ "manual" Res.Ended [])))
     = "manual".
Proof.
  split; [reflexivity |].
  exact (proj1 (proj2 (ended_response_is_not_altered false Json.stringify
                         (send (VStr "late") (Some 404) (Some [("X-Trace", HStr "t1")]))
                         (Res.mk 200 ∅ "manual" Res.Ended []) eq_refl))).
Defined.

Lemma headers_of_the_handle_survive_witness :
  Res.headers
    (snd (sendResponse false Json.stringify
            (send (VStr "hi") (Some 200) (Some [("X-Trace", HStr "t1")]))
            (Res.mk 200 (<["set-cookie" := HStr "a=1"]> ∅) EmptyString Res.Open [])))
    !! "set-cookie" = Some (HStr "a=1").
Proof.
  refine (headers_of_the_handle_survive false Json.stringify
            (send (VStr "hi") (Some 200) (Some [("X-Trace", HStr "t1")]))
            (Res.mk 200 (<["set-cookie" := HStr "a=1"]> ∅) EmptyString Res.Open [])
            _ "set-cookie" (HStr "a=1") _ _ _ _ _ _).
  - reflexivity.
  - vm_compute. reflexivity.
  - reflexivity.
  - constructor; [| constructor]. intros H. vm_compute in H. discriminate H.
  - intros H. discriminate H.
  - intros H. discriminate H.
Defined.

Lemma error_without_code_is_200_witness :
  Res.headersSent Res.fresh = false
  /\ Err.statusCode (createError None (Some "Not Found") VUndefined) = None
  /\ sendResponse false Json.stringify
       (snd (prepareErrorResponse
               (VResponseError (createError None (Some "Not Found") VUndefined))))
       Res.fresh
     = (Returned tt,
        Res.mk 200 (<["content-length" := HNum 9]> ∅) "Not Found" Res.Ended []).
Proof.
  split; [reflexivity | split; [reflexivity |]].
  exact (error_without_code_is_200 false Json.stringify
           (createError None (Some "Not Found") VUndefined) Res.fresh eq_refl eq_refl).
Defined.

Lemma lookalike_descriptor_is_payload_witness :
  IS_RESPONSE (mkDescriptor false (VStr "gone") 404 []) = false
  /\ Res.statusCode
       (snd (snd (subscriber false Json.stringify
                    (Examples.ev0, VNull, VDescriptor (mkDescriptor false (VStr "gone") 404 []))
                    Res.fresh)))
     = 200.
Proof.
  split; [reflexivity |].
  exact (proj2 (lookalike_descriptor_is_payload false Json.stringify
                  (mkDescriptor false (VStr "gone") 404 []) Examples.ev0 Res.fresh eq_refl)).
Defined.

Lemma handler_results_as_sequences_witness :
  dispatch (Examples.throws (VStr "boom")) Examples.ev0
    = dispatch (Examples.returns (VObservable [] (Fails (VStr "boom")))) Examples.ev0
  /\ dispatch (Examples.returns (VNum 7)) Examples.ev0
     = dispatch (Examples.returns (VObservable [VNum 7] Completes)) Examples.ev0.
Proof.
  split.
  - exact (proj1 (handler_results_as_sequences
                    (Examples.throws (VStr "boom"))
                    (Examples.returns (VObservable [] (Fails (VStr "boom"))))
                    Examples.ev0)
             (VStr "boom") eq_refl eq_refl).
  - refine (proj2 (handler_results_as_sequences
                     (Examples.returns (VNum 7))
                     (Examples.returns (VObservable [VNum 7] Completes))
                     Examples.ev0)
              (VNum 7) eq_refl _ eq_refl).
    intros items end_ H. discriminate H.
Defined.

Lemma server_never_closed_stays_open_witness :
  createServerObservable
    (Returned (mkServer (fun _ => Returned tt) [Accepted Examples.ev0; Accepted Examples.ev1]))
    (fun server => listen server 8080)
  = mkObservable [Examples.ev0; Examples.ev1] Pending.
Proof.
  exact (server_never_closed_stays_open
           (mkServer (fun _ => Returned tt) [Accepted Examples.ev0; Accepted Examples.ev1])
           (fun server => listen server 8080) [Examples.ev0; Examples.ev1]
           eq_refl eq_refl).
Defined.

Lemma only_json_depends_on_the_platform_witness :
  sendResponse true Json.stringify (send (VStr "hi") None None) Res.fresh
  = sendResponse false (fun _ _ => Threw VNull) (send (VStr "hi") None None) Res.fresh.
Proof.
  refine (only_json_depends_on_the_platform true false Json.stringify
            (fun _ _ => Threw VNull) (send (VStr "hi") None None) Res.fresh _).
  right. right. right. split; intros H; discriminate H.
Defined.

Lemma subscriber_leaves_ended_response_witness :
  Res.finished (Res.mk 200 ∅ "first" Res.Ended []) = true
  /\ Res.body
       (snd (snd (subscriber false Json.stringify
                    (Examples.ev0, VNull, VStr "second") (Res.mk 200 ∅ "first" Res.Ended []))))
     = "first".
Proof.
  split; [reflexivity |].
  exact (proj1 (proj2 (subscriber_leaves_ended_response false Json.stringify
                         (Examples.ev0, VNull, VStr "second")
                         (Res.mk 200 ∅ "first" Res.Ended []) eq_refl))).
Defined.

Lemma run_emits_every_request_witness :
  emitted (run [1; 0]%nat (Examples.returns (VObservable [VNum 1; VNum 2] Completes))
             (mkObservable [Examples.ev0; Examples.ev1] Completes))
  ≡ₚ concat
       (List.map
          (fun ev =>
             emitted (dispatch (Examples.returns (VObservable [VNum 1; VNum 2] Completes)) ev))
          [Examples.ev0; Examples.ev1])
  /\ filter (fun t : Triple => fst (fst t) = Examples.ev0)
       (emitted (run [1; 0]%nat
                   (Examples.returns (VObservable [VNum 1; VNum 2] Completes))
                   (mkObservable [Examples.ev0; Examples.ev1] Completes)))
     = [(Examples.ev0, VNull, VNum 1); (Examples.ev0, VNull, VNum 2)].
Proof.
  split.
  - refine (proj1 (run_emits_every_request [1; 0]%nat
                     (Examples.returns (VObservable [VNum 1; VNum 2] Completes))
                     (mkObservable [Examples.ev0; Examples.ev1] Completes)) _).
    intros e H. discriminate H.
  - refine (proj1 (proj2 (run_emits_every_request [1; 0]%nat
                            (Examples.returns (VObservable [VNum 1; VNum 2] Completes))
                            (mkObservable [Examples.ev0; Examples.ev1] Completes)))
              _ _ Examples.ev0 _).
    + intros e H. discriminate H.
    + apply NoDup_cons. split; [| apply NoDup_singleton].
      intros H. apply list_elem_of_singleton in H. discriminate H.
    + apply list_elem_of_here.
Defined.

(** With the second request delivering first, its first triple comes
    before those of the first request. *)
Example triples_interleave :
  emitted (run [1; 0]%nat (Examples.returns (VObservable [VNum 1; VNum 2] Completes))
             (mkObservable [Examples.ev0; Examples.ev1] Completes))
  = [(Examples.ev1, VNull, VNum 1); (Examples.ev0, VNull, VNum 1);
     (Examples.ev0, VNull, VNum 2); (Examples.ev1, VNull, VNum 2)].
Proof. reflexivity. Qed.

(** ** The request source at concrete servers *)

(** The port is taken: [listen] returns, the server emits ['error'], and the
    pipeline delivers nothing and does not end. *)
Example port_in_use_is_silent :
  createServerObservable (Returned (Examples.port_in_use (VError "Error" "EADDRINUSE")))
    (fun server => listen server 8080)
  = mkObservable [] Pending
  /\ uncaught (arrivals (Examples.port_in_use (VError "Error" "EADDRINUSE")))
     = Some (VError "Error" "EADDRINUSE")
  /\ serve [] (Examples.returns (VStr "hi"))
       (Returned (Examples.port_in_use (VError "Error" "EADDRINUSE"))) 8080
     = mkObservable [] Pending.
Proof. repeat split. Qed.

(** [listen] throws: the sequence of request events fails, and the observers
    of [serve] receive nothing. *)
Example listen_failure_is_silent :
  createServerObservable (Returned (Examples.refuses (VError "RangeError" "port")))
    (fun server => listen server 70000)
  = mkObservable [] (Fails (VError "RangeError" "port"))
  /\ serve [] (Examples.returns (VStr "hi"))
       (Returned (Examples.refuses (VError "RangeError" "port"))) 70000
     = mkObservable [] Pending.
Proof. repeat split. Qed.

(** One connection, then ['close']: the observers receive the triple of the
    request and the end of the sequence; a connection after ['close'] is not
    delivered. *)
Example closed_server_completes :
  serve [] (Examples.returns (VStr "hi")) (Returned Examples.one_request) 8080
  = mkObservable [(Examples.ev0, VNull, VStr "hi")] Completes.
Proof. reflexivity. Qed.
